(** * shopii scraper: the review rating engine

    A shallow embedding of [src/scraper/src/processors/rating_calculator.py]
    (with the [ScrapedReview] record of [src/scraper/src/scrapers/base.py]).

    Conventions of the embedding.
    - A Python [float] is a rational ([Q]) and its arithmetic is exact;
      results are compared with [==] ([Qeq]).  The code's binary floats
      round every operation, so a computed score can differ from the exact
      one in its last bits, and [round(x, 2)] or [int(x)] can then fall on
      the other side of a tie or of an integer.  Statements about computed
      scores are therefore made with a margin that the float rounding cannot
      cross ([near], bounds in hundredths) unless the computation is exact in
      floats as well.  NaN, the infinities and overflow have no counterpart:
      a sentiment so large that the sum overflows makes [int(...)] raise, and
      the theorems on ratings take the analysed sentiments in their declared
      range [-1,1].  The one irrational operation, the square root taken by
      [statistics.stdev], is a parameter of the development (section
      variable [fsqrt]).
    - A Python [int] is a [Z]; [Optional[int]] is [option Z].
    - A [str] is a [string] of 8-bit characters; case mapping and white space
      follow Python on the ASCII range and leave other characters alone
      (Python also maps the case of letters outside ASCII and strips Unicode
      white space).
    - The text-understanding backend is a tape of replies, consumed one per
      call; [json.loads] and the typed reading of the decoded fields are a
      parameter (section variable [json_loads]).
    - A [dict] whose iteration order matters is an association list in
      insertion order. *)

From Stdlib Require Import ZArith QArith Qround Qminmax Lqa Lia.
From Stdlib Require Import List Bool Ascii String DecimalString.
From Stdlib Require Import Permutation Sorted.
Import ListNotations.

Local Open Scope Q_scope.

(** ** Numbers *)

Module Num.

(** [x < y] on floats, as a boolean. *)
Definition Qlt_bool (x y : Q) : bool := negb (Qle_bool y x).

(** [sum(...)] over floats: Python starts from [0] and adds left to right. *)
Definition Qsum (l : list Q) : Q := fold_left Qplus l 0.

(** [sum(...)] over ints. *)
Definition Zsum (l : list Z) : Z := fold_left Z.add l 0%Z.

(** [int(x)]: truncation toward zero. *)
Definition int_of_float (x : Q) : Z := Z.quot (Qnum x) (Z.pos (Qden x)).

(** Rounding to the nearest integer, ties to the even one: Python's
    [round(x)]. *)
Definition round_half_even (x : Q) : Z :=
  let f := Qfloor x in
  match Qcompare (x - inject_Z f) (1 # 2) with
  | Lt => f
  | Gt => (f + 1)%Z
  | Eq => if Z.even f then f else (f + 1)%Z
  end.

(** [round(x, 2)], on the exact value. *)
Definition round2 (x : Q) : Q := round_half_even (x * 100) # 100.

End Num.
Import Num.

(** ** Data model *)

(** [ScrapedReview] of [scrapers/base.py]; [author] and [posted_at] are never
    read by the rating calculator and are left out. *)
Record ScrapedReview : Type := mkReview {
  source_type : string;
  source_url : string;
  source_name : string;
  content : string;
  upvotes : option Z;
  comment_count : option Z
}.

Record ReviewAnalysis : Type := mkAnalysis {
  sentiment : Q;
  pros : list string;
  cons : list string;
  credibility_weight : Q
}.

(** [ProductRating]; its fields [pros] and [cons] are [rating_pros] and
    [rating_cons] here, the plain names being those of [ReviewAnalysis]. *)
Record ProductRating : Type := mkRating {
  ai_rating : Z;
  confidence : Q;
  sentiment_score : Q;
  reliability_score : Q;
  value_score : Q;
  popularity_score : Q;
  sources_analyzed : Z;
  rating_pros : list string;
  rating_cons : list string;
  summary : string
}.

(** ** Credibility model *)

(** The [SOURCE_CREDIBILITY] table, in source order. *)
Definition SOURCE_CREDIBILITY : list (string * Q) :=
  [ ("wirecutter", 95 # 100);
    ("rtings", 95 # 100);
    ("techradar", 85 # 100);
    ("youtube", 70 # 100);
    ("reddit", 60 # 100);
    ("forum", 55 # 100);
    ("unknown", 50 # 100) ]%string.

(** [d.get(key, default)] on a dict with string keys. *)
Fixpoint dict_get {V : Type} (d : list (string * V)) (key : string) (default : V) : V :=
  match d with
  | [] => default
  | (k, v) :: d' => if String.eqb k key then v else dict_get d' key default
  end.

Definition base_credibility (ty : string) : Q :=
  dict_get SOURCE_CREDIBILITY ty (5 # 10).

(** The engagement bonus of [analyze_review]: [if review.upvotes:] is false
    for [None] and for [0]. *)
Definition engagement_bonus (up : option Z) : Q :=
  match up with
  | None => 0
  | Some u =>
      if (u =? 0)%Z then 0
      else if (100 <? u)%Z then 1 # 10
      else if (50 <? u)%Z then 5 # 100
      else if (10 <? u)%Z then 2 # 100
      else 0
  end.

(** [credibility = min(1.0, base_credibility + engagement_bonus)]. *)
Definition credibility_of (ty : string) (up : option Z) : Q :=
  Qmin 1 (base_credibility ty + engagement_bonus up).

Definition credibility (review : ScrapedReview) : Q :=
  credibility_of (source_type review) (upvotes review).

(** The engagement bonus as the specification words it: buckets of the upvote
    count, and nothing without a count. *)
Definition bucket_bonus (up : option Z) : Q :=
  match up with
  | Some u =>
      if (100 <? u)%Z then 1 # 10
      else if (50 <? u)%Z then 5 # 100
      else if (10 <? u)%Z then 2 # 100
      else 0
  | None => 0
  end.

(** ** Strings *)

Module Str.

Local Open Scope string_scope.

(** White space as [str.strip()] sees it on the ASCII range: TAB, LF, VT, FF,
    CR, the four separators FS GS RS US, and the space. *)
Definition is_space (c : ascii) : bool :=
  let n := nat_of_ascii c in
  ((9 <=? n) && (n <=? 13) || (28 <=? n) && (n <=? 32))%nat.

Definition is_upper (c : ascii) : bool :=
  let n := nat_of_ascii c in ((65 <=? n) && (n <=? 90))%nat.

Definition is_lower (c : ascii) : bool :=
  let n := nat_of_ascii c in ((97 <=? n) && (n <=? 122))%nat.

Definition lower_char (c : ascii) : ascii :=
  if is_upper c then ascii_of_nat (nat_of_ascii c + 32) else c.

Definition upper_char (c : ascii) : ascii :=
  if is_lower c then ascii_of_nat (nat_of_ascii c - 32) else c.

(** [s.lower()]. *)
Fixpoint lower (s : string) : string :=
  match s with
  | EmptyString => EmptyString
  | String c s' => String (lower_char c) (lower s')
  end.

Fixpoint lstrip (s : string) : string :=
  match s with
  | EmptyString => EmptyString
  | String c s' => if is_space c then lstrip s' else s
  end.

Fixpoint rstrip (s : string) : string :=
  match s with
  | EmptyString => EmptyString
  | String c s' =>
      match rstrip s' with
      | EmptyString => if is_space c then EmptyString else String c EmptyString
      | r => String c r
      end
  end.

(** [s.strip()]. *)
Definition strip (s : string) : string := rstrip (lstrip s).

(** [s.capitalize()]: first character upper-cased, the rest lower-cased. *)
Definition capitalize (s : string) : string :=
  match s with
  | EmptyString => EmptyString
  | String c s' => String (upper_char c) (lower s')
  end.

(** The truth value of a string: [if s:]. *)
Definition nonempty (s : string) : bool :=
  match s with EmptyString => false | _ => true end.

Definition open_brace : ascii := "{"%char.
Definition close_brace : ascii := "}"%char.

(** The characters of [s] before its first closing brace, when it has one. *)
Fixpoint until_close (s : string) : option string :=
  match s with
  | EmptyString => None
  | String c s' =>
      if Ascii.eqb c close_brace then Some EmptyString
      else option_map (String c) (until_close s')
  end.

(** [re.search(r"\{[^}]+\}", text, re.DOTALL)], returning [group()]: the
    leftmost opening brace that is followed by at least one character other
    than a closing brace and then by a closing brace. *)
Fixpoint re_search (text : string) : option string :=
  match text with
  | EmptyString => None
  | String c rest =>
      if Ascii.eqb c open_brace then
        match until_close rest with
        | Some (String b body) =>
            Some (String c (String b body ++ String close_brace EmptyString))
        | _ => re_search rest
        end
      else re_search rest
  end.

End Str.
Import Str.

(** ** The text-understanding backend *)

(** What one call of [client.messages.create(...)] followed by
    [response.content[0].text] yields: an exception, or the reply text. *)
Inductive reply : Type :=
| Raises
| Text (text : string).

(** The replies still to come; a call on an exhausted tape raises. *)
Definition tape : Type := list reply.

Definition messages_create (tp : tape) : reply * tape :=
  match tp with
  | [] => (Raises, [])
  | r :: tp' => (r, tp')
  end.

(** The decoded JSON object, read at the types [ReviewAnalysis] declares;
    [None] in a field is an absent key.  A [pros] or [cons] given as one
    string is the list of its characters, as slicing and iterating it give.
    A list that holds a value other than a string has no counterpart here:
    [analyze_review] accepts it and [calculate_rating] then raises at
    [pro.lower()]; the model covers the replies whose phrases are strings. *)
Record Payload : Type := mkPayload {
  js_sentiment : option Q;
  js_pros : option (list string);
  js_cons : option (list string)
}.

Definition or_default {A : Type} (o : option A) (d : A) : A :=
  match o with Some a => a | None => d end.

(** ** The rating calculator *)

(** [dict[key] = value] on an insertion-ordered dict: an existing key keeps
    its place, a new one goes last. *)
Fixpoint dict_set {V : Type} (d : list (string * V)) (key : string) (value : V)
  : list (string * V) :=
  match d with
  | [] => [(key, value)]
  | (k, v) :: d' =>
      if String.eqb k key then (k, value) :: d'
      else (k, v) :: dict_set d' key value
  end.

(** One step of the counting loop:
    [p = phrase.lower().strip(); if p: d[p] = d.get(p, 0) + 1]. *)
Definition count_phrase (d : list (string * Z)) (phrase : string) : list (string * Z) :=
  let key := strip (lower phrase) in
  if nonempty key then dict_set d key (dict_get d key 0 + 1)%Z else d.

Definition count_phrases (d : list (string * Z)) (phrases : list string)
  : list (string * Z) :=
  fold_left count_phrase phrases d.

(** [sorted(d.items(), key=lambda x: x[1], reverse=True)]: a stable sort by
    descending count.  Python's sort is stable also under [reverse=True], so
    any stable sort yields its result; this is insertion from the right. *)
Fixpoint insert_desc (x : string * Z) (l : list (string * Z)) : list (string * Z) :=
  match l with
  | [] => [x]
  | y :: l' =>
      if (snd x <? snd y)%Z then y :: insert_desc x l' else x :: y :: l'
  end.

Definition sorted_desc (items : list (string * Z)) : list (string * Z) :=
  fold_right insert_desc [] items.

Definition top5 (d : list (string * Z)) : list (string * Z) :=
  firstn 5 (sorted_desc d).

(** The five sentiment bands of [_generate_summary]. *)
Definition sentiment_desc (s : Q) : string :=
  if Qlt_bool (5 # 10) s then "very positive"
  else if Qlt_bool (2 # 10) s then "positive"
  else if Qlt_bool (- (2 # 10)) s then "mixed"
  else if Qlt_bool (- (5 # 10)) s then "negative"
  else "very negative".

(** [str(n)] for an int. *)
Definition str_of_int (n : Z) : string :=
  DecimalString.NilZero.string_of_int (Z.to_int n).

Definition NO_REVIEWS : ProductRating :=
  {| ai_rating := 50;
     confidence := 0;
     sentiment_score := 0;
     reliability_score := 0;
     value_score := 5 # 10;
     popularity_score := 0;
     sources_analyzed := 0;
     rating_pros := [];
     rating_cons := [];
     summary := "No reviews available for analysis." |}.

(** [len(l)] as an int. *)
Definition len {A : Type} (l : list A) : Z := Z.of_nat (List.length l).

Section Engine.

(** [json.loads] on the matched fragment, with the fields read at their
    declared types; [None] is any exception raised between the match and the
    construction of the [ReviewAnalysis]. *)
Variable json_loads : string -> option Payload.

(** The square root of [statistics.stdev]. *)
Variable fsqrt : Q -> Q.

(** The body of the [try] of [analyze_review]: [None] when control reaches
    the default analysis, by an exception or because nothing matched. *)
Definition try_analyze (credibility : Q) (r : reply) : option ReviewAnalysis :=
  match r with
  | Raises => None
  | Text text =>
      match re_search text with
      | None => None
      | Some fragment =>
          match json_loads fragment with
          | None => None
          | Some data =>
              Some {| sentiment := or_default (js_sentiment data) 0;
                      pros := firstn 3 (or_default (js_pros data) []);
                      cons := firstn 3 (or_default (js_cons data) []);
                      credibility_weight := credibility |}
          end
      end
  end.

Definition neutral_analysis (credibility : Q) : ReviewAnalysis :=
  {| sentiment := 0; pros := []; cons := []; credibility_weight := credibility |}.

Definition analyze_review (review : ScrapedReview) (tp : tape) : ReviewAnalysis * tape :=
  let credibility := credibility review in
  let (r, tp') := messages_create tp in
  (or_default (try_analyze credibility r) (neutral_analysis credibility), tp').

(** The loop [for review in reviews[:20]: analyses.append(...)], given the
    already sliced list. *)
Fixpoint analyze_each (reviews : list ScrapedReview) (tp : tape)
  : list ReviewAnalysis * tape :=
  match reviews with
  | [] => ([], tp)
  | review :: rest =>
      let (a, tp1) := analyze_review review tp in
      let (l, tp2) := analyze_each rest tp1 in
      (a :: l, tp2)
  end.

Definition total_weight (analyses : list ReviewAnalysis) : Q :=
  Qsum (map credibility_weight analyses).

Definition weighted_sentiment (analyses : list ReviewAnalysis) : Q :=
  let total_weight := total_weight analyses in
  if Qlt_bool 0 total_weight then
    Qsum (map (fun a => sentiment a * credibility_weight a) analyses) / total_weight
  else 0.

Definition all_pros (analyses : list ReviewAnalysis) : list (string * Z) :=
  fold_left (fun d a => count_phrases d (pros a)) analyses [].

Definition all_cons (analyses : list ReviewAnalysis) : list (string * Z) :=
  fold_left (fun d a => count_phrases d (cons a)) analyses [].

(** [statistics.stdev]: the square root of the sample variance, which the
    library computes exactly on fractions. *)
Definition mean (xs : list Q) : Q := Qsum xs / inject_Z (len xs).

Definition variance (xs : list Q) : Q :=
  let m := mean xs in
  Qsum (map (fun x => (x - m) * (x - m)) xs) / inject_Z (len xs - 1).

Definition stdev (xs : list Q) : Q := fsqrt (variance xs).

Definition reliability (analyses : list ReviewAnalysis) : Q :=
  let sentiments := map sentiment analyses in
  if (1 <? len sentiments)%Z then Qmax 0 (1 - stdev sentiments) else 5 # 10.

Definition total_upvotes (reviews : list ScrapedReview) : Z :=
  Zsum (map (fun r => or_default (upvotes r) 0%Z) reviews).

Definition total_comments (reviews : list ScrapedReview) : Z :=
  Zsum (map (fun r => or_default (comment_count r) 0%Z) reviews).

Definition popularity_raw (reviews : list ScrapedReview) : Q :=
  inject_Z (total_upvotes reviews) / 100 + inject_Z (total_comments reviews) / 50.

Definition popularity (reviews : list ScrapedReview) : Q :=
  Qmin 1 (popularity_raw reviews / inject_Z (len reviews)).

Definition value_of (sentiment_score : Q) : Q := (5 # 10) + sentiment_score * (2 # 10).

Definition confidence_of (reviews : list ScrapedReview) (reliability_score : Q) : Q :=
  let source_confidence := Qmin 1 (inject_Z (len reviews) / 15) in
  source_confidence * (6 # 10) + reliability_score * (4 # 10).

(** The sum handed to [int(...)], in exact arithmetic; the code's float sum
    agrees with it up to the rounding of its operations. *)
Definition rating_raw (s r v p : Q) : Q := 50 + s * 30 + r * 10 + v * 5 + p * 5.

Definition rating_of (s r v p : Q) : Z :=
  Z.max 0 (Z.min 100 (int_of_float (rating_raw s r v p))).

Definition fallback_summary (product_name desc : string) (num_sources : Z) : string :=
  ("Based on " ++ str_of_int num_sources ++ " sources, users have " ++ desc
   ++ " opinions about the " ++ product_name ++ ".")%string.

Definition _generate_summary (product_name : string) (sentiment : Q)
    (pros cons : list string) (num_sources : Z) (tp : tape) : string * tape :=
  let desc := sentiment_desc sentiment in
  let (r, tp') := messages_create tp in
  match r with
  | Text text => (strip text, tp')
  | Raises => (fallback_summary product_name desc num_sources, tp')
  end.

(** [calculate_rating]: the rating a call returns and the tape it leaves.
    The call raises instead, after the analyses and before the summary,
    when a sentiment is so large that the sum is not finite ([int(...)])
    or when a phrase is not a string ([pro.lower()]). *)
Definition calculate_rating (product_name : string) (reviews : list ScrapedReview)
    (tp : tape) : ProductRating * tape :=
  match reviews with
  | [] => (NO_REVIEWS, tp)
  | _ :: _ =>
      let (analyses, tp1) := analyze_each (firstn 20 reviews) tp in
      let sentiment_score := weighted_sentiment analyses in
      let top_pros := top5 (all_pros analyses) in
      let top_cons := top5 (all_cons analyses) in
      let reliability_score := reliability analyses in
      let popularity_score := popularity reviews in
      let value_score := value_of sentiment_score in
      let confidence := confidence_of reviews reliability_score in
      let ai_rating :=
        rating_of sentiment_score reliability_score value_score popularity_score in
      let (summary, tp2) :=
        _generate_summary product_name sentiment_score
          (map fst top_pros) (map fst top_cons) (len reviews) tp1 in
      ({| ai_rating := ai_rating;
          confidence := round2 confidence;
          sentiment_score := round2 sentiment_score;
          reliability_score := round2 reliability_score;
          value_score := round2 value_score;
          popularity_score := round2 popularity_score;
          sources_analyzed := len reviews;
          rating_pros := map (fun p => capitalize (fst p)) top_pros;
          rating_cons := map (fun c => capitalize (fst c)) top_cons;
          summary := summary |}, tp2)
  end.

End Engine.

(** ** Concrete parameters for running the model *)

(** A decoder given by a finite table of fragments and their payloads; every
    other fragment is rejected. *)
Fixpoint table_loads (tbl : list (string * Payload)) (fragment : string)
  : option Payload :=
  match tbl with
  | [] => None
  | (k, p) :: tbl' =>
      if String.eqb k fragment then Some p else table_loads tbl' fragment
  end.

(** A decoder that rejects everything. *)
Definition no_loads : string -> option Payload := table_loads [].

(** A fixed-point square root: [floor (sqrt (x * 2^52)) / 2^26]. *)
Definition fixed_sqrt (x : Q) : Q :=
  Z.sqrt (Qfloor (x * inject_Z (2 ^ 52))) # (2 ^ 26).

(** The double quote character, and a JSON string literal. *)
Definition dquote : string := String (ascii_of_nat 34) EmptyString.

Definition quoted (s : string) : string := (dquote ++ s ++ dquote)%string.

(** ** Specification-side notions for the phrase counts *)

(** The key under which a phrase is counted. *)
Definition phrase_key (phrase : string) : string := strip (lower phrase).

(** Only white space. *)
Fixpoint blank (s : string) : bool :=
  match s with
  | EmptyString => true
  | String c s' => is_space c && blank s'
  end.


(** The distinct elements of a list in the order of their first
    occurrence. *)
Fixpoint first_seen (l : list string) : list string :=
  match l with
  | [] => []
  | x :: l' => x :: filter (fun y => negb (String.eqb x y)) (first_seen l')
  end.

(** The number of phrases counted under [key]. *)
Definition occurrences (key : string) (phrases : list string) : Z :=
  len (filter (fun p => String.eqb (phrase_key p) key) phrases).

(** Membership of a key in a list of keys. *)
Definition mem (k : string) (l : list string) : bool := existsb (String.eqb k) l.

(** The order of the ranking: no entry has a smaller count than a later
    one. *)
Definition count_ge (x y : string * Z) : Prop := (snd y <= snd x)%Z.

(** Whether a character occurs in a string. *)
Fixpoint has_char (c : ascii) (s : string) : bool :=
  match s with
  | EmptyString => false
  | String c' s' => Ascii.eqb c' c || has_char c s'
  end.

(** The final score as the specification words it: the weighted sum rounded
    to the nearest integer, then clamped. *)
Definition spec_score (s r v p : Q) : Z :=
  Z.max 0 (Z.min 100 (round_half_even (rating_raw s r v p))).

(** ** Specification-side notions for the scores *)

(** Agreement to two decimals.  A score of the rating is a float rounded to
    two decimals: it differs from the exact value of its formula by that
    rounding, at most 0.005, and by the rounding of the float operations
    before it, which stays far below the 0.0001 left for it here. *)
Definition near (x y : Q) : Prop := y - (51 # 10000) <= x <= y + (51 # 10000).

(** The credibility-weighted mean: the sum of sentiment times weight over the
    sum of the weights. *)
Definition weighted_mean (analyses : list ReviewAnalysis) : Q :=
  fold_right (fun a acc => sentiment a * credibility_weight a + acc) 0 analyses
  / fold_right (fun a acc => credibility_weight a + acc) 0 analyses.

(** The sample variance by the sums of the values and of their squares:
    (sum of x^2 - (sum of x)^2 / n) / (n - 1). *)
Definition sample_variance (xs : list Q) : Q :=
  let n := inject_Z (Z.of_nat (List.length xs)) in
  let sum := fold_right Qplus 0 xs in
  let squares := fold_right (fun x acc => x * x + acc) 0 xs in
  (squares - sum * sum / n) / (n - 1).




(** Text on the ASCII range, where the model's case mapping and white space
    are Python's. *)
Fixpoint ascii_text (s : string) : bool :=
  match s with
  | EmptyString => true
  | String c s' => (nat_of_ascii c <? 128)%nat && ascii_text s'
  end.

(** ** Sample inputs *)

Module Samples.

Local Open Scope string_scope.

(** A discussion thread with six upvotes. *)
Definition thread : ScrapedReview :=
  {| source_type := "reddit";
     source_url := "https://www.reddit.com/r/headphones/comments/1";
     source_name := "r/headphones";
     content := "Comfortable, but the battery is weak.";
     upvotes := Some 6%Z;
     comment_count := None |}.

(** A thread voted far below zero. *)
Definition downvoted : ScrapedReview :=
  {| source_type := "reddit";
     source_url := "https://www.reddit.com/r/headphones/comments/2";
     source_name := "r/headphones";
     content := "Do not buy.";
     upvotes := Some (-500)%Z;
     comment_count := None |}.

(** An editorial review. *)
Definition editorial : ScrapedReview :=
  {| source_type := "wirecutter";
     source_url := "https://www.nytimes.com/wirecutter/reviews/1";
     source_name := "Wirecutter";
     content := "Our pick for most people.";
     upvotes := None;
     comment_count := None |}.

(** The JSON text [{"sentiment": 999}] and what [json.loads] and the field
    reads make of it. *)
Definition wild_fragment : string := "{" ++ quoted "sentiment" ++ ": 999}".

Definition wild_payload : Payload :=
  {| js_sentiment := Some 999; js_pros := None; js_cons := None |}.

Definition wild_loads : string -> option Payload :=
  table_loads [(wild_fragment, wild_payload)].

Definition wild_reply : reply := Text ("Here is the analysis: " ++ wild_fragment).

(** Twenty-one reviews, and the same with another last one. *)
Definition crowd : list ScrapedReview := (repeat thread 20 ++ [editorial])%list.

Definition crowd' : list ScrapedReview := (repeat thread 20 ++ [downvoted])%list.

(** Two analyses that disagree, one analysis without weight, and a batch
    with phrases that differ by case and margins. *)
Definition two_opinions : list ReviewAnalysis :=
  [ mkAnalysis (8 # 10) [] [] (95 # 100);
    mkAnalysis (- (2 # 10)) [] [] (6 # 10) ].

Definition weightless : list ReviewAnalysis := [ mkAnalysis 1 [] [] 0 ].

Definition batch : list ReviewAnalysis :=
  [ mkAnalysis 1 ["Great sound"; "comfy"; " great SOUND "] [] 1;
    mkAnalysis 1 ["Cheap"; "light"; "comfy "] [] 1;
    mkAnalysis 1 ["cheap"; "   "] [] 1 ].

(** A reply without any brace. *)
Definition prose_reply : reply := Text "I could not read this review.".

(** Two well-formed answers of the backend, as JSON text and as decoded: one
    glad, one sour. *)
Definition glad_fragment : string :=
  "{" ++ quoted "sentiment" ++ ": 0.5, " ++ quoted "pros" ++ ": ["
  ++ quoted "Great sound" ++ ", " ++ quoted "comfy" ++ "]}".

Definition glad_payload : Payload :=
  {| js_sentiment := Some (5 # 10);
     js_pros := Some ["Great sound"; "comfy"];
     js_cons := None |}.

Definition sour_fragment : string :=
  "{" ++ quoted "sentiment" ++ ": -0.25, " ++ quoted "pros" ++ ": ["
  ++ quoted " great SOUND " ++ "], " ++ quoted "cons" ++ ": ["
  ++ quoted "Weak battery" ++ "]}".

Definition sour_payload : Payload :=
  {| js_sentiment := Some (- (25 # 100));
     js_pros := Some [" great SOUND "];
     js_cons := Some ["Weak battery"] |}.

Definition scored_loads : string -> option Payload :=
  table_loads [(glad_fragment, glad_payload); (sour_fragment, sour_payload)].

Definition glad_reply : reply := Text glad_fragment.

Definition sour_reply : reply := Text ("Here is the analysis: " ++ sour_fragment).

(** A video with many upvotes and comments. *)
Definition popular : ScrapedReview :=
  {| source_type := "youtube";
     source_url := "https://www.youtube.com/watch?v=abc";
     source_name := "Some channel";
     content := "Ten months later.";
     upvotes := Some 300%Z;
     comment_count := Some 60%Z |}.

(** Two reviews with their two answers; twenty threads followed by the
    video, with twenty answers. *)
Definition duo : list ScrapedReview := [thread; editorial].
Definition duo_tape : tape := [glad_reply; sour_reply].

Definition crowded : list ScrapedReview := (repeat thread 20 ++ [popular])%list.
Definition mixed_tape : tape := (repeat glad_reply 10 ++ repeat sour_reply 10)%list.

End Samples.

(** * The rest of the pipeline *)

(** ** Content normalisation ([scrapers/base.py]) *)

(** [s.split()]: the maximal runs of characters other than white space. *)
Fixpoint split (s : string) : list string :=
  match s with
  | EmptyString => []
  | String c s' =>
      if is_space c then split s'
      else
        match s' with
        | EmptyString => [String c EmptyString]
        | String c' _ =>
            if is_space c' then String c EmptyString :: split s'
            else
              match split s' with
              | w :: ws => String c w :: ws
              | [] => [String c EmptyString]
              end
        end
  end.

(** [BaseScraper.normalize_content]. *)
Definition normalize_content (content : string) : string :=
  if nonempty content then
    let content := String.concat " " (split content) in
    if (5000 <? String.length content)%nat
    then (substring 0 5000 content ++ "...")%string
    else content
  else EmptyString.

(** A text in which white space occurs only as single spaces between other
    characters: every white space character is a space and is followed by a
    character that is not white space. *)
Fixpoint spaced (s : string) : bool :=
  match s with
  | EmptyString => true
  | String c s' =>
      if is_space c then
        Ascii.eqb c " " &&
        match s' with
        | String c' _ => negb (is_space c')
        | EmptyString => false
        end && spaced s'
      else spaced s'
  end.

(** ... and which does not begin with white space either. *)
Definition tidy (s : string) : bool :=
  spaced s && match s with String c _ => negb (is_space c) | EmptyString => true end.

(** A non-empty run of characters other than white space. *)
Fixpoint solid (s : string) : bool :=
  match s with
  | EmptyString => true
  | String c s' => negb (is_space c) && solid s'
  end.

Definition word (s : string) : bool := nonempty s && solid s.

(** Begins with a character that is not white space. *)
Definition starts_solid (s : string) : bool :=
  match s with String c _ => negb (is_space c) | EmptyString => false end.

(** ** The worker ([worker.py]) *)

(** [sub in s] on strings. *)
Fixpoint contains (sub s : string) : bool :=
  String.prefix sub s ||
  match s with
  | EmptyString => false
  | String _ s' => contains sub s'
  end.

(** The scraper singletons. *)
Inductive Scraper : Type :=
| reddit_scraper
| youtube_scraper
| wirecutter_scraper
| rtings_scraper
| techradar_scraper
| headfi_scraper
| avsforum_scraper.

(** A row of [review_sources], as the two INSERT statements fill it; the
    column [scraped_at], set to [NOW()], is left out. *)
Record ReviewRow : Type := mkRow {
  row_product_id : string;
  row_source_type : string;
  row_source_url : string;
  row_source_name : string;
  row_raw_content : string;
  row_upvotes : option Z;
  row_comment_count : option Z
}.

(** The two tables the worker writes: [review_sources], in insertion order,
    and [product_ratings], keyed by [product_id] (its conflict target); the
    time stamps and the [products] table, which the worker only stamps, are
    left out. *)
Record Database : Type := mkDb {
  review_sources : list ReviewRow;
  product_ratings : list (string * ProductRating)
}.

Definition row_of (product_id : string) (review : ScrapedReview) : ReviewRow :=
  {| row_product_id := product_id;
     row_source_type := source_type review;
     row_source_url := source_url review;
     row_source_name := source_name review;
     row_raw_content := content review;
     row_upvotes := upvotes review;
     row_comment_count := comment_count review |}.

(** [SELECT id FROM review_sources WHERE source_url = :url] has a row. *)
Definition url_known (rows : list ReviewRow) (url : string) : bool :=
  existsb (fun row => String.eqb (row_source_url row) url) rows.

(** One turn of the saving loop of [scrape_product_reviews]: skip a review
    whose URL is stored, insert the others.  The statement of [scrape_url],
    [INSERT ... ON CONFLICT (source_url) DO NOTHING], does the same. *)
Definition save_review (product_id : string) (rows : list ReviewRow)
    (review : ScrapedReview) : list ReviewRow :=
  if url_known rows (source_url review) then rows
  else rows ++ [row_of product_id review].

Definition save_reviews (product_id : string) (rows : list ReviewRow)
    (reviews : list ScrapedReview) : list ReviewRow :=
  fold_left (save_review product_id) reviews rows.

(** [x in l] for a list of strings and an optional string. *)
Definition in_list (x : option string) (l : list string) : bool :=
  match x with
  | Some s => existsb (String.eqb s) l
  | None => false
  end.

(** The scrapers [scrape_product_reviews] runs for a category. *)
Definition scrapers_for (category : option string) : list Scraper :=
  [reddit_scraper; youtube_scraper; wirecutter_scraper; rtings_scraper;
   techradar_scraper]
  ++ (if in_list category ["headphones"; "audio"; "electronics"]%string
      then [headfi_scraper] else [])
  ++ (if in_list category ["home_theater"; "tv"; "audio"]%string
      then [avsforum_scraper] else []).

(** What the task returns. *)
Inductive TaskResult : Type :=
| no_reviews (product_id : string)
| success (product_id : string) (ai_rating : Z) (confidence : Q)
    (sources_analyzed : Z).

Section Worker.

Variable json_loads : string -> option Payload.
Variable fsqrt : Q -> Q.

(** [scraper.search(product_name, limit=10)] for each scraper: the reviews
    found, or [None] when the call raises. *)
Variable search : Scraper -> option (list ScrapedReview).

(** The collecting loop: a scraper that raises is skipped. *)
Definition collect (scrapers : list Scraper) : list ScrapedReview :=
  fold_left
    (fun all_reviews scraper =>
       match search scraper with
       | Some reviews => all_reviews ++ reviews
       | None => all_reviews
       end)
    scrapers [].

(** [scrape_product_reviews], for a run that completes: the database
    statements succeed and the rating call returns.  A run that raises is
    handed to [self.retry] and reports nothing. *)
Definition scrape_product_reviews (db : Database) (tp : tape)
    (product_id product_name : string) (category : option string)
  : TaskResult * Database * tape :=
  let all_reviews := collect (scrapers_for category) in
  match all_reviews with
  | [] => (no_reviews product_id, db, tp)
  | _ :: _ =>
      let rows := save_reviews product_id (review_sources db) all_reviews in
      let (rating, tp') :=
        calculate_rating json_loads fsqrt product_name all_reviews tp in
      let ratings := dict_set (product_ratings db) product_id rating in
      (success product_id (ai_rating rating) (confidence rating)
         (sources_analyzed rating),
       {| review_sources := rows; product_ratings := ratings |}, tp')
  end.

End Worker.

(** The scraper [scrape_url] picks for a URL. *)
Definition scraper_for_url (url : string) : option Scraper :=
  if contains "reddit.com" url then Some reddit_scraper
  else if contains "youtube.com" url || contains "youtu.be" url
       then Some youtube_scraper
  else if contains "nytimes.com/wirecutter" url then Some wirecutter_scraper
  else if contains "rtings.com" url then Some rtings_scraper
  else if contains "techradar.com" url then Some techradar_scraper
  else if contains "head-fi.org" url then Some headfi_scraper
  else if contains "avsforum.com" url then Some avsforum_scraper
  else None.

Inductive UrlResult : Type :=
| url_failed (url : string)
| url_success (url : string) (source_type : string) (content_length : Z).

(** The task [scrape_url]; [scrape s url] is [s.scrape_url(url)], [None]
    when the scraper has no review to give. *)
Definition scrape_url (scrape : Scraper -> string -> option ScrapedReview)
    (db : Database) (url : string) (product_id : option string)
  : UrlResult * Database :=
  let review :=
    match scraper_for_url url with
    | Some scraper => scrape scraper url
    | None => None
    end in
  match review with
  | None => (url_failed url, db)
  | Some review =>
      let db' :=
        match product_id with
        | Some id =>
            if nonempty id then
              {| review_sources := save_review id (review_sources db) review;
                 product_ratings := product_ratings db |}
            else db
        | None => db
        end in
      (url_success url (source_type review) (Z.of_nat (String.length (content review))),
       db')
  end.

(** ** The Reddit scraper ([scrapers/reddit.py]) *)

Module Reddit.

Local Open Scope string_scope.

Definition CATEGORY_SUBREDDITS : list (string * list string) :=
  [ ("electronics", ["BuyItForLife"; "gadgets"; "technology"; "techsupport"]);
    ("headphones", ["headphones"; "HeadphoneAdvice"; "audiophile"; "budgetaudiophile"]);
    ("keyboards", ["MechanicalKeyboards"; "keyboards"; "ErgoMechKeyboards"]);
    ("gaming", ["pcgaming"; "buildapc"; "GamingLaptops"; "pcmasterrace"]);
    ("home", ["BuyItForLife"; "HomeImprovement"; "homeowners"; "DIY"]);
    ("fashion", ["malefashionadvice"; "femalefashionadvice"; "frugalmalefashion"; "Sneakers"]);
    ("fitness", ["homegym"; "Fitness"; "running"; "cycling"]) ].

Definition GENERAL_SUBREDDITS : list string :=
  ["BuyItForLife"; "ProductTesting"; "AskReddit"; "AmazonTopRated"].

Definition keyword_mapping : list (string * list string) :=
  [ ("electronics", ["phone"; "laptop"; "computer"; "tech"; "electronic"]);
    ("headphones", ["headphone"; "earphone"; "earbud"; "audio"; "speaker"]);
    ("keyboards", ["keyboard"; "keycap"; "switch"; "mechanical"]);
    ("gaming", ["gaming"; "game"; "pc"; "console"; "monitor"]);
    ("home", ["kitchen"; "home"; "appliance"; "furniture"]);
    ("fashion", ["shoe"; "clothing"; "jacket"; "boot"; "sneaker"]);
    ("fitness", ["gym"; "fitness"; "workout"; "exercise"; "running"]) ].

(** The subreddits added for the categories whose keywords occur in the
    lower-cased query, in the order of [keyword_mapping]. *)
Definition category_subreddits (query_lower : string) : list string :=
  flat_map
    (fun entry =>
       if existsb (fun kw => contains kw query_lower) (snd entry)
       then dict_get CATEGORY_SUBREDDITS (fst entry) []
       else [])
    keyword_mapping.

(** [_get_subreddits_for_query].  The source builds a [set] and lists it in
    an order Python does not specify; here the elements stand in the order
    in which they were added, each once. *)
Definition _get_subreddits_for_query (query : string) : list string :=
  let query_lower := lower query in
  first_seen (GENERAL_SUBREDDITS ++ category_subreddits query_lower)%list.

(** A comment as the scraper reads it: [comment_body] is [None] for an
    object without a [body]. *)
Record Comment : Type := mkComment {
  comment_body : option string;
  comment_score : Z
}.

(** A post (a PRAW submission); [post_comments] is [None] when fetching the
    comments raises. *)
Record Post : Type := mkPost {
  post_title : string;
  post_is_self : bool;
  post_selftext : string;
  post_comments : option (list Comment);
  post_subreddit : string;
  post_permalink : string;
  post_score : Z;
  post_num_comments : Z
}.

Definition newline : string := String (ascii_of_nat 10) EmptyString.

(** The line a comment contributes, if any. *)
Definition comment_part (comment : Comment) : list string :=
  match comment_body comment with
  | Some body =>
      if nonempty body && (1 <? comment_score comment)%Z
      then ["Comment (" ++ str_of_int (comment_score comment) ++ " upvotes): "
            ++ substring 0 500 body]
      else []
  | None => []
  end.

(** [_extract_post_content]. *)
Definition _extract_post_content (post : Post) : string :=
  let content_parts := ["Title: " ++ post_title post] in
  let content_parts :=
    if post_is_self post && nonempty (post_selftext post)
    then (content_parts
          ++ [("Post: " ++ substring 0 2000 (post_selftext post))%string])%list
    else content_parts in
  let content_parts :=
    match post_comments post with
    | Some comments =>
        (content_parts ++ flat_map comment_part (firstn 10 comments))%list
    | None => content_parts
    end in
  String.concat (newline ++ newline) content_parts.

(** The review [search] makes of a post; [author] and [posted_at] are not
    part of the model of [ScrapedReview]. *)
Definition review_of (post : Post) (content : string) : ScrapedReview :=
  {| source_type := "reddit";
     source_url := "https://reddit.com" ++ post_permalink post;
     source_name := "r/" ++ post_subreddit post;
     content := normalize_content content;
     upvotes := Some (post_score post);
     comment_count := Some (post_num_comments post) |}.

(** The loop of [search] over the search results, with the reviews
    collected so far. *)
Fixpoint search_loop (subreddits : list string) (limit : Z) (posts : list Post)
    (reviews : list ScrapedReview) : list ScrapedReview :=
  match posts with
  | [] => reviews
  | post :: rest =>
      if negb (mem (post_subreddit post) subreddits)
         && (limit / 2 <=? len reviews)%Z
      then search_loop subreddits limit rest reviews
      else
        let content := _extract_post_content post in
        if negb (nonempty content) then search_loop subreddits limit rest reviews
        else
          let reviews := (reviews ++ [review_of post content])%list in
          if (limit <=? len reviews)%Z then reviews
          else search_loop subreddits limit rest reviews
  end.

(** [RedditScraper.search]: [client] tells whether the credentials are set,
    [results] is what the search of all of Reddit yields for the query, read
    without an exception. *)
Definition search (client : bool) (results : list Post) (query : string)
    (limit : Z) : list ScrapedReview :=
  if client
  then search_loop (_get_subreddits_for_query query) limit results []
  else [].

End Reddit.

(** ** More sample inputs *)

Module MoreSamples.

Local Open Scope string_scope.

(** A frequency table with six keys. *)
Definition six_buckets : list (string * Z) :=
  [ ("loud", 1%Z); ("clear", 3%Z); ("light", 2%Z);
    ("sturdy", 5%Z); ("cheap", 4%Z); ("heavy", 1%Z) ].

(** Two analyses that agree. *)
Definition agreeing : list ReviewAnalysis :=
  [ mkAnalysis (1 # 2) [] [] (6 # 10); mkAnalysis (1 # 2) [] [] 1 ].

(** Search results: only the Reddit scraper finds something; no scraper
    finds anything. *)
Definition reddit_only (s : Scraper) : option (list ScrapedReview) :=
  match s with
  | reddit_scraper => Some [Samples.thread; Samples.downvoted]
  | youtube_scraper => None
  | _ => Some []
  end.

Definition nothing_found (s : Scraper) : option (list ScrapedReview) :=
  match s with
  | reddit_scraper => Some []
  | _ => None
  end.

Definition empty_db : Database :=
  {| review_sources := []; product_ratings := [] |}.

(** A scraper interface that answers every URL with the same review. *)
Definition always_thread (s : Scraper) (url : string) : option ScrapedReview :=
  Some Samples.thread.

(** A scraper interface that has no review for any URL. *)
Definition never_scraped (s : Scraper) (url : string) : option ScrapedReview :=
  None.

End MoreSamples.

(** * Properties *)

(** ** The model on small inputs *)

Example re_search_skips_empty_braces :
  re_search "a{}b{c{d}e}" = Some "{c{d}"%string.
Proof. reflexivity. Qed.

Example re_search_needs_closing_brace : re_search "see {sentiment: 1" = None.
Proof. reflexivity. Qed.

Example phrase_is_lowered_and_trimmed :
  strip (lower "  Great SOUND ") = "great sound"%string.
Proof. reflexivity. Qed.

Example capitalize_first_letter : capitalize "great sound" = "Great sound"%string.
Proof. reflexivity. Qed.

Example int_truncates_toward_zero :
  int_of_float (578 # 10) = 57%Z /\ int_of_float (- (578 # 10)) = (-57)%Z.
Proof. split; reflexivity. Qed.

Example round_ties_to_even :
  round_half_even (5 # 2) = 2%Z /\ round_half_even (7 # 2) = 4%Z /\
  round2 (12345 # 10000) = 123 # 100.
Proof. repeat split. Qed.

Example one_review_without_backend :
  fst (calculate_rating no_loads fixed_sqrt "Headphones" [Samples.thread] [])
  = {| ai_rating := 57;
       confidence := 24 # 100;
       sentiment_score := 0 # 100;
       reliability_score := 50 # 100;
       value_score := 50 # 100;
       popularity_score := 6 # 100;
       sources_analyzed := 1;
       rating_pros := [];
       rating_cons := [];
       summary := "Based on 1 sources, users have mixed opinions about the Headphones." |}.
Proof. reflexivity. Qed.

Example two_scored_reviews :
  fst (calculate_rating Samples.scored_loads fixed_sqrt "Headphones"
         Samples.duo (Samples.duo_tape ++ [Text " Users like the sound. "]))
  = {| ai_rating := 58;
       confidence := 27 # 100;
       sentiment_score := 4 # 100;
       reliability_score := 47 # 100;
       value_score := 51 # 100;
       popularity_score := 3 # 100;
       sources_analyzed := 2;
       rating_pros := ["Great sound"; "Comfy"]%string;
       rating_cons := ["Weak battery"]%string;
       summary := "Users like the sound." |}.
Proof. vm_compute. reflexivity. Qed.

(** A twenty-first review changes the popularity score (0.26 with the video,
    0.06 with the editorial review) and the reported count, not the
    sentiment score. *)
Example the_twenty_first_review :
  let r := fst (calculate_rating Samples.scored_loads fixed_sqrt "Headphones"
                  Samples.crowded Samples.mixed_tape) in
  let r' := fst (calculate_rating Samples.scored_loads fixed_sqrt "Headphones"
                   Samples.crowd Samples.mixed_tape) in
  popularity_score r = 26 # 100 /\ popularity_score r' = 6 # 100 /\
  sentiment_score r = 12 # 100 /\ sentiment_score r' = 12 # 100 /\
  sources_analyzed r = 21%Z.
Proof. vm_compute. repeat split. Qed.

(** ** Numbers *)

Section NumFacts.

Lemma Qlt_bool_iff (x y : Q) : Qlt_bool x y = true <-> x < y.
Proof.
  unfold Qlt_bool. rewrite negb_true_iff.
  destruct (Qle_bool y x) eqn:E.
  - apply Qle_bool_iff in E. split; [discriminate | intro; lra].
  - split; [intros _ | reflexivity].
    apply Qnot_le_lt. intro H. apply Qle_bool_iff in H. congruence.
Qed.

Lemma fold_Qplus_acc (l : list Q) (a : Q) :
  fold_left Qplus l a == a + fold_left Qplus l 0.
Proof.
  revert a. induction l as [|x l IH]; intro a; simpl.
  - lra.
  - rewrite (IH (a + x)), (IH (0 + x)). lra.
Qed.

Lemma Qsum_cons (x : Q) (l : list Q) : Qsum (x :: l) == x + Qsum l.
Proof. unfold Qsum. simpl. rewrite fold_Qplus_acc. lra. Qed.

Lemma Qsum_nil : Qsum [] == 0.
Proof. reflexivity. Qed.

Lemma fold_Zadd_acc (l : list Z) (a : Z) :
  fold_left Z.add l a = (a + fold_left Z.add l 0)%Z.
Proof.
  revert a. induction l as [|x l IH]; intro a; simpl.
  - lia.
  - rewrite (IH (a + x)%Z), (IH x). lia.
Qed.

Lemma Zsum_cons (x : Z) (l : list Z) : Zsum (x :: l) = (x + Zsum l)%Z.
Proof. unfold Zsum. simpl. rewrite fold_Zadd_acc. lia. Qed.

(** [round_half_even] stays between the floor and the floor plus one. *)
Lemma round_half_even_floor (x : Q) :
  (Qfloor x <= round_half_even x <= Qfloor x + 1)%Z.
Proof.
  unfold round_half_even.
  destruct (Qcompare _ _); [destruct (Z.even _) | |]; lia.
Qed.

Lemma round_half_even_ge (n : Z) (x : Q) :
  inject_Z n <= x -> (n <= round_half_even x)%Z.
Proof.
  intro H. apply Qfloor_resp_le in H. rewrite Qfloor_Z in H.
  pose proof (round_half_even_floor x). lia.
Qed.

Lemma round_half_even_le (n : Z) (x : Q) :
  x <= inject_Z n -> (round_half_even x <= n)%Z.
Proof.
  intro H. unfold round_half_even.
  pose proof (Qfloor_le x) as Hf.
  assert (Hfn : (Qfloor x <= n)%Z).
  { apply Qfloor_resp_le in H. now rewrite Qfloor_Z in H. }
  destruct (Qcompare (x - inject_Z (Qfloor x)) (1 # 2)) eqn:E.
  - apply Qeq_alt in E.
    assert (Hlt : inject_Z (Qfloor x) < inject_Z n) by lra.
    rewrite <- Zlt_Qlt in Hlt. destruct (Z.even _); lia.
  - exact Hfn.
  - apply Qgt_alt in E.
    assert (Hlt : inject_Z (Qfloor x) < inject_Z n) by lra.
    rewrite <- Zlt_Qlt in Hlt. lia.
Qed.

Lemma Qmake_100 (n : Z) : n # 100 == inject_Z n * (1 # 100).
Proof. unfold Qeq; simpl; lia. Qed.

Lemma round2_ge (n : Z) (x : Q) : n # 100 <= x -> n # 100 <= round2 x.
Proof.
  intro H. unfold round2. rewrite Qmake_100 in H.
  assert (Hn : (n <= round_half_even (x * 100))%Z)
    by (apply round_half_even_ge; lra).
  unfold Qle; simpl; lia.
Qed.

Lemma round2_le (n : Z) (x : Q) : x <= n # 100 -> round2 x <= n # 100.
Proof.
  intro H. unfold round2. rewrite Qmake_100 in H.
  assert (Hn : (round_half_even (x * 100) <= n)%Z)
    by (apply round_half_even_le; lra).
  unfold Qle; simpl; lia.
Qed.

Lemma round2_between (a b : Z) (x : Q) :
  a # 100 <= x <= b # 100 -> a # 100 <= round2 x <= b # 100.
Proof. intros [Ha Hb]. split; [now apply round2_ge | now apply round2_le]. Qed.

(** Truncation lies within one of its argument, on the side of zero. *)
Lemma int_of_float_spec (x : Q) :
  (0 <= x -> inject_Z (int_of_float x) <= x < inject_Z (int_of_float x) + 1) /\
  (x <= 0 -> x <= inject_Z (int_of_float x) < x + 1).
Proof.
  destruct x as [n d]. unfold int_of_float. simpl.
  pose proof (Z.quot_rem' n (Z.pos d)) as Hqr.
  assert (Hd : (0 < Z.pos d)%Z) by lia.
  split; intro H.
  - assert (Hn : (0 <= n)%Z) by (unfold Qle in H; simpl in H; lia).
    pose proof (Z.rem_bound_pos n (Z.pos d) Hn Hd) as Hr.
    unfold Qle, Qlt; simpl. nia.
  - assert (Hn : (n <= 0)%Z) by (unfold Qle in H; simpl in H; lia).
    pose proof (Z.rem_bound_pos_neg n (Z.pos d) Hd Hn) as Hr.
    unfold Qle, Qlt; simpl. nia.
Qed.

Lemma round_half_even_near (x : Q) :
  x - (1 # 2) <= inject_Z (round_half_even x) <= x + (1 # 2).
Proof.
  unfold round_half_even.
  pose proof (Qfloor_le x) as Hlo. pose proof (Qlt_floor x) as Hhi.
  rewrite inject_Z_plus in Hhi. change (inject_Z 1) with 1 in Hhi.
  assert (Hs : inject_Z (Qfloor x + 1) == inject_Z (Qfloor x) + 1)
    by (rewrite inject_Z_plus; reflexivity).
  destruct (Qcompare (x - inject_Z (Qfloor x)) (1 # 2)) eqn:E.
  - apply Qeq_alt in E.
    destruct (Z.even (Qfloor x)); [|rewrite Hs]; split; lra.
  - apply Qlt_alt in E. split; lra.
  - apply Qgt_alt in E. rewrite Hs. split; lra.
Qed.

Lemma round2_near (x : Q) : x - (1 # 200) <= round2 x <= x + (1 # 200).
Proof.
  unfold round2. rewrite Qmake_100.
  pose proof (round_half_even_near (x * 100)). split; lra.
Qed.

Lemma round2_near_eq (x y : Q) : x == y -> near (round2 x) y.
Proof. intro H. pose proof (round2_near x). unfold near. split; lra. Qed.

Lemma Qsum_fold_right {A : Type} (f : A -> Q) (l : list A) :
  Qsum (map f l) == fold_right (fun a acc => f a + acc) 0 l.
Proof.
  induction l as [|a l IH]; simpl; [reflexivity|].
  rewrite Qsum_cons, IH. reflexivity.
Qed.


End NumFacts.

(** ** The credibility model *)

Section CredibilityFacts.

Local Open Scope string_scope.

Lemma dict_get_notin {V : Type} (d : list (string * V)) (key : string) (default : V) :
  ~ In key (map fst d) -> dict_get d key default = default.
Proof.
  induction d as [|[k v] d IH]; simpl; intro H; [reflexivity|].
  destruct (String.eqb_spec k key) as [->|Hne].
  - exfalso. apply H. now left.
  - apply IH. intro Hin. apply H. now right.
Qed.

Lemma base_credibility_bounds (ty : string) :
  5 # 10 <= base_credibility ty <= 95 # 100.
Proof.
  unfold base_credibility, SOURCE_CREDIBILITY. cbn [dict_get].
  repeat match goal with
         | |- context [if ?b then _ else _] => destruct b
         end; split; lra.
Qed.

Lemma engagement_bonus_buckets (up : option Z) :
  engagement_bonus up = bucket_bonus up.
Proof.
  destruct up as [u|]; [|reflexivity]. unfold engagement_bonus, bucket_bonus.
  destruct (Z.eqb_spec u 0) as [->|_]; reflexivity.
Qed.

Lemma bucket_bonus_bounds (up : option Z) : 0 <= bucket_bonus up <= 1 # 10.
Proof.
  destruct up as [u|]; simpl; [|split; lra].
  destruct (100 <? u)%Z, (50 <? u)%Z, (10 <? u)%Z; split; lra.
Qed.

Lemma bucket_bonus_mono (u1 u2 : Z) :
  (u1 <= u2)%Z -> bucket_bonus (Some u1) <= bucket_bonus (Some u2).
Proof.
  intro H. simpl.
  destruct (Z.ltb_spec 100 u1), (Z.ltb_spec 100 u2),
    (Z.ltb_spec 50 u1), (Z.ltb_spec 50 u2),
    (Z.ltb_spec 10 u1), (Z.ltb_spec 10 u2); try lia; lra.
Qed.

Lemma credibility_of_bounds (ty : string) (up : option Z) :
  5 # 10 <= credibility_of ty up <= 1.
Proof.
  unfold credibility_of. rewrite engagement_bonus_buckets.
  pose proof (base_credibility_bounds ty). pose proof (bucket_bonus_bounds up).
  split.
  - apply Q.min_glb; lra.
  - apply Q.le_min_l.
Qed.

End CredibilityFacts.

Section AnalyzerFacts.

Variable json_loads : string -> option Payload.

Lemma try_analyze_weight (c : Q) (r : reply) (a : ReviewAnalysis) :
  try_analyze json_loads c r = Some a -> credibility_weight a = c.
Proof.
  unfold try_analyze. destruct r as [|text]; [discriminate|].
  destruct (re_search text) as [fragment|]; [|discriminate].
  destruct (json_loads fragment) as [data|]; [|discriminate].
  intros [= <-]. reflexivity.
Qed.

Lemma analyze_review_weight (review : ScrapedReview) (tp : tape) :
  credibility_weight (fst (analyze_review json_loads review tp)) = credibility review.
Proof.
  unfold analyze_review. destruct (messages_create tp) as [r tp']. simpl.
  destruct (try_analyze json_loads (credibility review) r) as [a|] eqn:E; simpl.
  - now apply try_analyze_weight in E.
  - reflexivity.
Qed.

Lemma analyze_each_weights (reviews : list ScrapedReview) (tp : tape) :
  map credibility_weight (fst (analyze_each json_loads reviews tp))
  = map credibility reviews.
Proof.
  revert tp. induction reviews as [|review rest IH]; intro tp; simpl; [reflexivity|].
  pose proof (analyze_review_weight review tp) as Hw.
  destruct (analyze_review json_loads review tp) as [a tp1]. simpl in Hw.
  specialize (IH tp1). destruct (analyze_each json_loads rest tp1) as [l tp2].
  simpl in *. now rewrite Hw, IH.
Qed.

Lemma analyze_each_length (reviews : list ScrapedReview) (tp : tape) :
  List.length (fst (analyze_each json_loads reviews tp)) = List.length reviews.
Proof.
  rewrite <- (length_map credibility_weight), analyze_each_weights.
  apply length_map.
Qed.

End AnalyzerFacts.

Lemma Qsum_ge_first (c : Q) (l : list Q) :
  0 <= c -> Forall (fun w => c <= w) l -> l <> [] -> c <= Qsum l.
Proof.
  intros Hc Hall Hne. destruct Hall as [|w l Hw Hl]; [congruence|].
  rewrite Qsum_cons.
  assert (H0 : 0 <= Qsum l).
  { clear Hne Hw. induction Hl as [|v l Hv Hl IH]; [rewrite Qsum_nil; lra|].
    rewrite Qsum_cons. lra. }
  lra.
Qed.

Lemma firstn_nonempty {A : Type} (n : nat) (l : list A) :
  l <> [] -> firstn (S n) l <> [].
Proof. destruct l; [congruence | discriminate]. Qed.

(** C6, as the code has it: for every source type and optional upvote count
    the credibility weight is [min(1, base + bonus)]; the base is read from the
    table wirecutter 0.95, rtings 0.95, techradar 0.85, youtube 0.70,
    reddit 0.60, forum 0.55, unknown 0.50, and is 0.50 for a type outside the
    table; the bonus is 0.10 above 100 upvotes, 0.05 above 50, 0.02 above 10
    and 0 otherwise; the weight is monotone in the upvote count; and
    weight(wirecutter, None) = 0.95, weight(unknown, 150) = 0.60. *)
Theorem credibility_weight_model :
  (forall ty up,
      credibility_of ty up = Qmin 1 (base_credibility ty + bucket_bonus up)) /\
  (base_credibility "wirecutter" = 95 # 100 /\
   base_credibility "rtings" = 95 # 100 /\
   base_credibility "techradar" = 85 # 100 /\
   base_credibility "youtube" = 70 # 100 /\
   base_credibility "reddit" = 60 # 100 /\
   base_credibility "forum" = 55 # 100 /\
   base_credibility "unknown" = 50 # 100) /\
  (forall ty, ~ In ty (map fst SOURCE_CREDIBILITY) ->
              base_credibility ty = 5 # 10) /\
  (forall ty u1 u2, (u1 <= u2)%Z ->
      credibility_of ty (Some u1) <= credibility_of ty (Some u2)) /\
  (forall ty u, credibility_of ty None <= credibility_of ty (Some u)) /\
  credibility_of "wirecutter" None == 95 # 100 /\
  credibility_of "unknown" (Some 150%Z) == 60 # 100.
Proof.
  split; [|split; [|split; [|split; [|split; [|split]]]]].
  - intros ty up. unfold credibility_of. now rewrite engagement_bonus_buckets.
  - repeat split.
  - intros ty H. now apply dict_get_notin.
  - intros ty u1 u2 H. unfold credibility_of. rewrite !engagement_bonus_buckets.
    apply Q.min_le_compat_l. pose proof (bucket_bonus_mono u1 u2 H). lra.
  - intros ty u. unfold credibility_of. rewrite !engagement_bonus_buckets.
    apply Q.min_le_compat_l.
    pose proof (bucket_bonus_bounds (Some u)). simpl bucket_bonus at 1. lra.
  - reflexivity.
  - reflexivity.
Qed.

Lemma credibility_weight_model_witness :
  credibility_of "reddit" (Some 7%Z) <= credibility_of "reddit" (Some 120%Z)
  /\ base_credibility "editorial" = 5 # 10.
Proof.
  split.
  - apply (proj1 (proj2 (proj2 (proj2 credibility_weight_model)))). lia.
  - apply (proj1 (proj2 (proj2 credibility_weight_model))).
    simpl. intros [H|[H|[H|[H|[H|[H|[H|[]]]]]]]]; discriminate H.
Defined.

(** C6 as stated fails: the table has no entry "editorial", so that type
    weighs the default 0.50 and not 0.95. *)
Lemma credibility_editorial_is_default :
  credibility_of "editorial" None == 5 # 10 /\
  ~ credibility_of "editorial" None == 95 # 100.
Proof. split; [reflexivity | discriminate]. Qed.

(** C10: every analysis made by [analyze_review] carries a credibility weight
    in [0.5, 1]; hence for a non-empty review list the total weight of the
    analyses is at least 0.5, the test [total_weight > 0] succeeds, and the
    sentiment score is the quotient of the two sums. *)
Theorem analyzed_weight_positive (json_loads : string -> option Payload) :
  (forall review tp,
      5 # 10 <= credibility_weight (fst (analyze_review json_loads review tp)) <= 1) /\
  (forall reviews tp, reviews <> [] ->
      let analyses := fst (analyze_each json_loads (firstn 20 reviews) tp) in
      5 # 10 <= total_weight analyses /\
      Qlt_bool 0 (total_weight analyses) = true /\
      weighted_sentiment analyses
      == Qsum (map (fun a => sentiment a * credibility_weight a) analyses)
         / total_weight analyses).
Proof.
  split.
  - intros review tp. rewrite analyze_review_weight. apply credibility_of_bounds.
  - intros reviews tp Hne analyses.
    assert (Hw : 5 # 10 <= total_weight analyses).
    { unfold total_weight, analyses. rewrite analyze_each_weights.
      apply Qsum_ge_first; [lra | |].
      - apply Forall_forall. intros w Hin. apply in_map_iff in Hin.
        destruct Hin as [r [<- _]]. apply credibility_of_bounds.
      - intro H. apply map_eq_nil in H. revert H. now apply firstn_nonempty. }
    assert (Hb : Qlt_bool 0 (total_weight analyses) = true)
      by (apply Qlt_bool_iff; lra).
    repeat split; [exact Hw | exact Hb |].
    unfold weighted_sentiment. fold analyses. now rewrite Hb.
Qed.

Lemma analyzed_weight_positive_witness :
  5 # 10 <= total_weight
              (fst (analyze_each Samples.wild_loads
                      (firstn 20 [Samples.thread; Samples.editorial])
                      [Samples.wild_reply])).
Proof.
  destruct (proj2 (analyzed_weight_positive Samples.wild_loads)
              [Samples.thread; Samples.editorial] [Samples.wild_reply]
              ltac:(discriminate)) as [H _].
  exact H.
Defined.

(** ** The aggregation *)

Section AggregatorFacts.

Variable json_loads : string -> option Payload.
Variable fsqrt : Q -> Q.

(** What [calculate_rating] returns on a non-empty list, field by field. *)
Lemma calculate_rating_fields (product_name : string)
    (reviews : list ScrapedReview) (tp : tape) :
  reviews <> [] ->
  let analyses := fst (analyze_each json_loads (firstn 20 reviews) tp) in
  let s := weighted_sentiment analyses in
  let rel := reliability fsqrt analyses in
  let r := fst (calculate_rating json_loads fsqrt product_name reviews tp) in
  ai_rating r = rating_of s rel (value_of s) (popularity reviews) /\
  confidence r = round2 (confidence_of reviews rel) /\
  sentiment_score r = round2 s /\
  reliability_score r = round2 rel /\
  value_score r = round2 (value_of s) /\
  popularity_score r = round2 (popularity reviews) /\
  sources_analyzed r = len reviews /\
  rating_pros r = map (fun p => capitalize (fst p)) (top5 (all_pros analyses)) /\
  rating_cons r = map (fun c => capitalize (fst c)) (top5 (all_cons analyses)).
Proof.
  intro Hne. destruct reviews as [|review rest]; [congruence|].
  unfold calculate_rating.
  destruct (analyze_each json_loads (firstn 20 (review :: rest)) tp)
    as [analyses tp1].
  destruct (_generate_summary _ _ _ _ _ tp1) as [text tp2].
  cbn [fst]. repeat split.
Qed.

Lemma weighted_sum_bound (analyses : list ReviewAnalysis) :
  Forall (fun a => -1 <= sentiment a <= 1 /\ 0 <= credibility_weight a) analyses ->
  - total_weight analyses
  <= Qsum (map (fun a => sentiment a * credibility_weight a) analyses)
  <= total_weight analyses.
Proof.
  unfold total_weight. induction 1 as [|a l [Hs Hw] _ IH]; simpl.
  - rewrite Qsum_nil. split; lra.
  - rewrite !Qsum_cons.
    set (sa := sentiment a) in *. set (wa := credibility_weight a) in *.
    assert (H1 : 0 <= (1 - sa) * wa) by (apply Qmult_le_0_compat; lra).
    assert (H2 : 0 <= (sa + 1) * wa) by (apply Qmult_le_0_compat; lra).
    split; lra.
Qed.

Lemma weighted_sentiment_bounds (analyses : list ReviewAnalysis) :
  Forall (fun a => -1 <= sentiment a <= 1 /\ 0 <= credibility_weight a) analyses ->
  -1 <= weighted_sentiment analyses <= 1.
Proof.
  intro H. apply weighted_sum_bound in H. unfold weighted_sentiment.
  destruct (Qlt_bool 0 (total_weight analyses)) eqn:E; [|split; lra].
  apply Qlt_bool_iff in E. split.
  - apply Qle_shift_div_l; [exact E | lra].
  - apply Qle_shift_div_r; [exact E | lra].
Qed.

Lemma reliability_bounds (analyses : list ReviewAnalysis) :
  (forall x, 0 <= fsqrt x) -> 0 <= reliability fsqrt analyses <= 1.
Proof.
  intro Hsqrt. unfold reliability, stdev.
  destruct (1 <? len (map sentiment analyses))%Z; [|split; lra].
  set (sd := fsqrt _). specialize (Hsqrt (variance (map sentiment analyses))).
  fold sd in Hsqrt. split.
  - apply Q.le_max_l.
  - apply Q.max_lub; lra.
Qed.

Lemma len_nonneg {A : Type} (l : list A) : 0 <= inject_Z (len l).
Proof. unfold len. rewrite <- (Zle_Qle 0). lia. Qed.

Lemma len_pos {A : Type} (l : list A) : l <> [] -> 0 < inject_Z (len l).
Proof.
  intro H. unfold len. rewrite <- (Zlt_Qlt 0).
  destruct l; [congruence | simpl; lia].
Qed.

Lemma confidence_bounds (reviews : list ScrapedReview) (rel : Q) :
  0 <= rel <= 1 -> 0 <= confidence_of reviews rel <= 1.
Proof.
  intro Hrel. unfold confidence_of.
  set (sc := Qmin 1 _).
  assert (Hsc : 0 <= sc <= 1).
  { split; [|apply Q.le_min_l]. apply Q.min_glb; [lra|].
    apply Qle_shift_div_l; [lra|]. pose proof (len_nonneg reviews). lra. }
  split; lra.
Qed.

Lemma popularity_le_1 (reviews : list ScrapedReview) : popularity reviews <= 1.
Proof. apply Q.le_min_l. Qed.

Lemma popularity_nonneg (reviews : list ScrapedReview) :
  reviews <> [] -> 0 <= popularity_raw reviews -> 0 <= popularity reviews.
Proof.
  intros Hne Hraw. unfold popularity. apply Q.min_glb; [lra|].
  apply Qle_shift_div_l; [now apply len_pos | lra].
Qed.

Lemma rating_of_bounds (s r v p : Q) : (0 <= rating_of s r v p <= 100)%Z.
Proof. unfold rating_of. lia. Qed.

End AggregatorFacts.

(** ** The parameters used in the examples *)

Lemma fixed_sqrt_nonneg (x : Q) : 0 <= fixed_sqrt x.
Proof.
  unfold fixed_sqrt, Qle. cbn [Qnum Qden].
  pose proof (Z.sqrt_nonneg (Qfloor (x * inject_Z (2 ^ 52)))). lia.
Qed.

Lemma fixed_sqrt_ge_1 (x : Q) : 1 <= x -> 1 <= fixed_sqrt x.
Proof.
  intro H. unfold fixed_sqrt.
  assert (Hx : inject_Z (2 ^ 52) <= x * inject_Z (2 ^ 52)).
  { assert (0 <= (x - 1) * inject_Z (2 ^ 52)).
    { apply Qmult_le_0_compat; [lra|]. now rewrite <- (Zle_Qle 0). }
    lra. }
  apply Qfloor_resp_le in Hx. rewrite Qfloor_Z in Hx.
  apply Z.sqrt_le_mono in Hx.
  change (Z.sqrt (2 ^ 52)) with (2 ^ 26)%Z in Hx.
  unfold Qle. cbn [Qnum Qden]. rewrite Pos2Z.inj_pow. lia.
Qed.

(** ** The claims on the rating *)

Lemma round2_ge_0 (x : Q) : 0 <= x -> 0 <= round2 x.
Proof.
  intro H. apply Qle_trans with (0 # 100); [lra|]. apply round2_ge. lra.
Qed.

Lemma round2_le_1 (x : Q) : x <= 1 -> round2 x <= 1.
Proof.
  intro H. apply Qle_trans with (100 # 100); [|lra]. apply round2_le. lra.
Qed.

Lemma round2_ge_m1 (x : Q) : -1 <= x -> -1 <= round2 x.
Proof.
  intro H. apply Qle_trans with (-100 # 100); [lra|]. apply round2_ge. lra.
Qed.

Lemma value_of_bounds (s : Q) : -1 <= s <= 1 -> 0 <= value_of s <= 1.
Proof. unfold value_of. intros [H1 H2]. split; lra. Qed.

Lemma analyzed_sentiments_weighted (json_loads : string -> option Payload)
    (reviews : list ScrapedReview) (tp : tape) :
  let analyses := fst (analyze_each json_loads reviews tp) in
  Forall (fun a => -1 <= sentiment a <= 1) analyses ->
  Forall (fun a => -1 <= sentiment a <= 1 /\ 0 <= credibility_weight a) analyses.
Proof.
  intros analyses H. apply Forall_forall. intros a Hin. split.
  - revert a Hin. now apply Forall_forall.
  - apply (in_map credibility_weight) in Hin. unfold analyses in Hin.
    rewrite analyze_each_weights in Hin. apply in_map_iff in Hin.
    destruct Hin as [rv [<- _]].
    pose proof (credibility_of_bounds (source_type rv) (upvotes rv)).
    unfold credibility. lra.
Qed.

Lemma batch_weight_positive (json_loads : string -> option Payload)
    (reviews : list ScrapedReview) (tp : tape) :
  reviews <> [] ->
  5 # 10 <= total_weight (fst (analyze_each json_loads (firstn 20 reviews) tp)).
Proof.
  intro Hne. unfold total_weight. rewrite analyze_each_weights.
  apply Qsum_ge_first; [lra | |].
  - apply Forall_forall. intros w Hin. apply in_map_iff in Hin.
    destruct Hin as [r [<- _]]. apply credibility_of_bounds.
  - intro H. apply map_eq_nil in H. revert H. now apply firstn_nonempty.
Qed.

Lemma weighted_sentiment_mean (analyses : list ReviewAnalysis) :
  0 < total_weight analyses ->
  weighted_sentiment analyses == weighted_mean analyses.
Proof.
  intro Hpos. unfold weighted_sentiment, weighted_mean.
  assert (E : Qlt_bool 0 (total_weight analyses) = true) by now apply Qlt_bool_iff.
  rewrite E. unfold total_weight.
  rewrite (Qsum_fold_right (fun a => sentiment a * credibility_weight a)).
  rewrite (Qsum_fold_right credibility_weight). reflexivity.
Qed.


Lemma squared_deviations (m : Q) (xs : list Q) :
  Qsum (map (fun x => (x - m) * (x - m)) xs)
  == fold_right (fun x acc => x * x + acc) 0 xs
     - 2 * m * fold_right Qplus 0 xs
     + inject_Z (Z.of_nat (List.length xs)) * m * m.
Proof.
  induction xs as [|x xs IH].
  - simpl. rewrite Qsum_nil. ring.
  - cbn [map fold_right List.length]. rewrite Qsum_cons, IH.
    rewrite Nat2Z.inj_succ, <- Z.add_1_r, inject_Z_plus.
    change (inject_Z 1) with 1. ring.
Qed.

Lemma variance_sample_variance (xs : list Q) : variance xs == sample_variance xs.
Proof.
  destruct xs as [|x0 xs0]; [reflexivity|].
  set (xs := x0 :: xs0).
  assert (Hn : 0 < inject_Z (Z.of_nat (List.length xs))).
  { rewrite <- (Zlt_Qlt 0). unfold xs. simpl. lia. }
  assert (HS : Qsum xs == fold_right Qplus 0 xs).
  { rewrite <- (map_id xs) at 1. apply (Qsum_fold_right (fun x => x)). }
  unfold variance, sample_variance.
  rewrite squared_deviations. unfold mean, len. rewrite HS.
  set (n := inject_Z (Z.of_nat (List.length xs))) in *.
  assert (Hm : inject_Z (Z.of_nat (List.length xs) - 1) == n - 1).
  { unfold Z.sub. rewrite inject_Z_plus. reflexivity. }
  rewrite Hm.
  set (S := fold_right Qplus 0 xs).
  set (SQ := fold_right (fun x acc => x * x + acc) 0 xs).
  assert (Hnum : SQ - 2 * (S / n) * S + n * (S / n) * (S / n) == SQ - S * S / n)
    by (field; lra).
  rewrite Hnum. reflexivity.
Qed.

(** C1 fails, against the ranges that the fields of [ProductRating] declare
    in the code: a sentiment of 999 in the backend's answer is passed on
    unclamped into the sentiment and value scores (only the credibility
    weight gets a [min]), and a negative upvote count makes the popularity
    score negative (it is capped from above only). *)
Lemma rating_out_of_range :
  let r := fst (calculate_rating Samples.wild_loads fixed_sqrt "Headphones"
                  [Samples.downvoted] [Samples.wild_reply]) in
  sentiment_score r == 999 /\ value_score r == 2003 # 10 /\
  popularity_score r == -5 /\
  ~ (-1 <= sentiment_score r <= 1) /\
  ~ (0 <= value_score r <= 1) /\
  ~ (0 <= popularity_score r <= 1).
Proof.
  vm_compute. repeat split; try reflexivity; intros [H1 H2]; auto.
Qed.

Lemma int_of_float_nonneg (x : Q) : 0 <= x -> int_of_float x = Qfloor x.
Proof.
  destruct x as [n d]. unfold Qle, int_of_float. simpl. intro H.
  apply Z.quot_div_nonneg; lia.
Qed.

Lemma int_of_float_neg (x : Q) : x < 0 -> (int_of_float x <= 0 /\ Qfloor x < 0)%Z.
Proof.
  destruct x as [n d]. unfold Qlt, int_of_float. simpl. intro H. split.
  - pose proof (Z.quot_rem' n (Z.pos d)).
    pose proof (Z.rem_bound_pos_neg n (Z.pos d)). nia.
  - apply Z.div_lt_upper_bound; lia.
Qed.

Lemma clamp_int_of_float (x : Q) :
  Z.max 0 (Z.min 100 (int_of_float x)) = Z.max 0 (Z.min 100 (Qfloor x)).
Proof.
  destruct (Qlt_le_dec x 0) as [H|H].
  - apply int_of_float_neg in H. lia.
  - now rewrite int_of_float_nonneg.
Qed.

Lemma clamp_floor_near (x : Q) :
  let score := Z.max 0 (Z.min 100 (Qfloor x)) in
  let clamped := Qmax 0 (Qmin 100 x) in
  clamped - 1 <= inject_Z score <= clamped.
Proof.
  intros score clamped.
  pose proof (Qfloor_le x) as Hlo. pose proof (Qlt_floor x) as Hhi.
  rewrite inject_Z_plus in Hhi. change (inject_Z 1) with 1 in Hhi.
  destruct (Qlt_le_dec x 0) as [Hneg|Hpos].
  - assert (Hf : (Qfloor x < 0)%Z).
    { rewrite Zlt_Qlt. change (inject_Z 0) with 0. lra. }
    assert (Hs : score = 0%Z) by (unfold score; lia).
    assert (Hc : clamped == 0).
    { unfold clamped. rewrite (Q.min_r 100 x) by lra. apply Q.max_l. lra. }
    rewrite Hs, Hc. change (inject_Z 0) with 0. split; lra.
  - destruct (Qlt_le_dec x 100) as [Hlt|Hge].
    + assert (Hf : (0 <= Qfloor x < 100)%Z).
      { split.
        - apply Qfloor_resp_le in Hpos. exact Hpos.
        - rewrite Zlt_Qlt. change (inject_Z 100) with 100. lra. }
      assert (Hs : score = Qfloor x) by (unfold score; lia).
      assert (Hc : clamped == x).
      { unfold clamped. rewrite (Q.min_r 100 x) by lra. apply Q.max_r. lra. }
      rewrite Hs, Hc. split; lra.
    + assert (Hf : (100 <= Qfloor x)%Z).
      { apply Qfloor_resp_le in Hge. exact Hge. }
      assert (Hs : score = 100%Z) by (unfold score; lia).
      assert (Hc : clamped == 100).
      { unfold clamped. rewrite (Q.min_l 100 x) by lra. apply Q.max_r. lra. }
      rewrite Hs, Hc. change (inject_Z 100) with 100. split; lra.
Qed.

(** C2, as the code has it: for every non-empty review list whose analysed
    sentiments lie in [-1,1], the final score is the sum
    50 + 30 s + 10 r + 5 v + 5 p cut down to an integer and clamped to
    [0,100], not rounded: it lies between the clamped sum minus one and the
    clamped sum (the margin of 0.001 covers the float rounding of the sum),
    and it is the claimed rounded value or one less. *)
Theorem score_is_truncated_sum (json_loads : string -> option Payload)
    (fsqrt : Q -> Q) (product_name : string)
    (reviews : list ScrapedReview) (tp : tape) :
  reviews <> [] ->
  let analyses := fst (analyze_each json_loads (firstn 20 reviews) tp) in
  Forall (fun a => -1 <= sentiment a <= 1) analyses ->
  let s := weighted_sentiment analyses in
  let r := reliability fsqrt analyses in
  let v := value_of s in
  let p := popularity reviews in
  let sum := 50 + 30 * s + 10 * r + 5 * v + 5 * p in
  let clamped := Qmax 0 (Qmin 100 sum) in
  let rounded := Z.max 0 (Z.min 100 (round_half_even sum)) in
  let score :=
    ai_rating (fst (calculate_rating json_loads fsqrt product_name reviews tp)) in
  clamped - 1 - (1 # 1000) <= inject_Z score <= clamped + (1 # 1000) /\
  (rounded - 1 <= score <= rounded)%Z.
Proof.
  intros Hne analyses _ s r v p sum clamped rounded score.
  destruct (calculate_rating_fields json_loads fsqrt product_name reviews tp Hne)
    as (Hai & _).
  assert (Hscore : score = Z.max 0 (Z.min 100 (Qfloor sum))).
  { unfold score. rewrite Hai. unfold rating_of. rewrite clamp_int_of_float.
    fold analyses s r v p. do 2 f_equal. apply Qfloor_comp.
    unfold rating_raw, sum. ring. }
  split.
  - pose proof (clamp_floor_near sum) as H. cbv zeta in H.
    fold clamped in H. rewrite <- Hscore in H. split; lra.
  - pose proof (round_half_even_floor sum). unfold rounded. lia.
Qed.

Lemma score_is_truncated_sum_witness :
  let analyses := fst (analyze_each Samples.scored_loads (firstn 20 Samples.duo) Samples.duo_tape) in
  let s := weighted_sentiment analyses in
  let sum := 50 + 30 * s + 10 * reliability fixed_sqrt analyses
             + 5 * value_of s + 5 * popularity Samples.duo in
  let score :=
    ai_rating (fst (calculate_rating Samples.scored_loads fixed_sqrt "Headphones"
                      Samples.duo Samples.duo_tape)) in
  (Qmax 0 (Qmin 100 sum) - 1 - (1 # 1000) <= inject_Z score
   <= Qmax 0 (Qmin 100 sum) + (1 # 1000)) /\
  (Z.max 0 (Z.min 100 (round_half_even sum)) - 1 <= score
   <= Z.max 0 (Z.min 100 (round_half_even sum)))%Z.
Proof.
  apply (score_is_truncated_sum Samples.scored_loads fixed_sqrt "Headphones" Samples.duo Samples.duo_tape).
  - discriminate.
  - vm_compute. repeat constructor; discriminate.
Defined.

(** C2 as stated fails: one review with six upvotes and no usable analysis
    gives the sum 57.8, which [int] cuts to 57 where rounding gives 58. *)
Lemma score_truncates :
  let analyses := fst (analyze_each no_loads (firstn 20 [Samples.thread]) []) in
  let s := weighted_sentiment analyses in
  let rel := reliability fixed_sqrt analyses in
  let r := fst (calculate_rating no_loads fixed_sqrt "Headphones"
                  [Samples.thread] []) in
  rating_raw s rel (value_of s) (popularity [Samples.thread]) == 578 # 10 /\
  ai_rating r = 57%Z /\
  spec_score s rel (value_of s) (popularity [Samples.thread]) = 58%Z /\
  spec_score (sentiment_score r) (reliability_score r) (value_score r)
    (popularity_score r) = 58%Z /\
  ai_rating r <> spec_score s rel (value_of s) (popularity [Samples.thread]).
Proof. vm_compute. repeat split; discriminate. Qed.

(** C3: the sentiment score that the rating of a non-empty review list
    carries is, to two decimals, the credibility-weighted mean of the
    analysed sentiments (taken in [-1,1]): the sum of sentiment times weight
    over the sum of the weights; and the aggregate of analyses whose weights
    are non-negative and add up to 0 is 0. *)
Theorem sentiment_is_weighted_mean :
  (forall json_loads fsqrt product_name reviews tp,
      reviews <> [] ->
      let analyses := fst (analyze_each json_loads (firstn 20 reviews) tp) in
      Forall (fun a => -1 <= sentiment a <= 1) analyses ->
      near (sentiment_score
              (fst (calculate_rating json_loads fsqrt product_name reviews tp)))
           (weighted_mean analyses)) /\
  (forall analyses,
      Forall (fun a => 0 <= credibility_weight a) analyses ->
      fold_right (fun a acc => credibility_weight a + acc) 0 analyses == 0 ->
      weighted_sentiment analyses == 0).
Proof.
  split.
  - intros json_loads fsqrt product_name reviews tp Hne analyses _.
    destruct (calculate_rating_fields json_loads fsqrt product_name reviews tp Hne)
      as (_ & _ & Hsent & _).
    rewrite Hsent. apply round2_near_eq. apply weighted_sentiment_mean.
    pose proof (batch_weight_positive json_loads reviews tp Hne) as Hw.
    fold analyses in Hw. lra.
  - intros analyses _ Hzero. unfold weighted_sentiment.
    destruct (Qlt_bool 0 (total_weight analyses)) eqn:E; [|reflexivity].
    apply Qlt_bool_iff in E. unfold total_weight in E.
    rewrite (Qsum_fold_right credibility_weight) in E. lra.
Qed.

Lemma sentiment_is_weighted_mean_witness :
  near (sentiment_score
          (fst (calculate_rating Samples.scored_loads fixed_sqrt "Headphones" Samples.duo Samples.duo_tape)))
       (weighted_mean (fst (analyze_each Samples.scored_loads (firstn 20 Samples.duo) Samples.duo_tape))) /\
  weighted_sentiment Samples.weightless == 0.
Proof.
  destruct sentiment_is_weighted_mean as [Hmean Hzero]. split.
  - apply Hmean; [discriminate|]. vm_compute. repeat constructor; discriminate.
  - apply Hzero; [repeat constructor; discriminate | reflexivity].
Defined.

Lemma len_lt_1 {A : Type} (l : list A) :
  (1 <? len l)%Z = (1 <? List.length l)%nat.
Proof.
  unfold len. destruct (Nat.ltb_spec 1 (List.length l));
    [apply Z.ltb_lt | apply Z.ltb_ge]; lia.
Qed.

(** C4: the sample variance of the library is the textbook one, by the sums
    of the values and of their squares; with at least two reviews the
    reliability score of the rating is, to two decimals, max(0, 1 - s), s
    the square root of the sample variance of the analysed sentiments
    (taken in [-1,1]), and the rating of a single review has reliability
    0.5; a variance of at least 1 gives reliability 0 and fewer than two
    analyses 0.5; two analyses of equal weight with sentiments 1 and -1 have
    sentiment score 0, sample variance 2 and reliability score 0. *)
Theorem reliability_is_one_minus_stdev (fsqrt : Q -> Q) :
  (forall x, 1 <= x -> 1 <= fsqrt x) ->
  (forall xs, variance xs == sample_variance xs) /\
  (forall json_loads product_name reviews tp,
      (2 <= List.length reviews)%nat ->
      let analyses := fst (analyze_each json_loads (firstn 20 reviews) tp) in
      Forall (fun a => -1 <= sentiment a <= 1) analyses ->
      near (reliability_score
              (fst (calculate_rating json_loads fsqrt product_name reviews tp)))
           (Qmax 0 (1 - fsqrt (variance (map sentiment analyses))))) /\
  (forall json_loads product_name review tp,
      reliability_score
        (fst (calculate_rating json_loads fsqrt product_name [review] tp))
      == 5 # 10) /\
  (forall analyses, (2 <= List.length analyses)%nat ->
      1 <= variance (map sentiment analyses) ->
      reliability fsqrt analyses == 0) /\
  (forall analyses, (List.length analyses < 2)%nat ->
      reliability fsqrt analyses = 5 # 10) /\
  (forall w p1 c1 p2 c2,
      let analyses := [mkAnalysis 1 p1 c1 w; mkAnalysis (-1) p2 c2 w] in
      weighted_sentiment analyses == 0 /\
      variance (map sentiment analyses) == 2 /\
      reliability fsqrt analyses == 0).
Proof.
  intro Hsqrt.
  assert (Hmany : forall analyses, (2 <= List.length analyses)%nat ->
            reliability fsqrt analyses
            = Qmax 0 (1 - fsqrt (variance (map sentiment analyses)))).
  { intros analyses Hlen. unfold reliability, stdev.
    rewrite len_lt_1, length_map.
    destruct (Nat.ltb_spec 1 (List.length analyses)); [reflexivity | lia]. }
  assert (Hfew : forall analyses, (List.length analyses < 2)%nat ->
            reliability fsqrt analyses = 5 # 10).
  { intros analyses Hlen. unfold reliability.
    rewrite len_lt_1, length_map.
    destruct (Nat.ltb_spec 1 (List.length analyses)); [lia | reflexivity]. }
  assert (Hone : forall analyses, (2 <= List.length analyses)%nat ->
            1 <= variance (map sentiment analyses) ->
            reliability fsqrt analyses == 0).
  { intros analyses Hlen Hvar. rewrite (Hmany analyses Hlen).
    apply Q.max_l. specialize (Hsqrt _ Hvar). lra. }
  split; [exact variance_sample_variance|].
  split; [|split; [|split; [exact Hone | split; [exact Hfew|]]]].
  - intros json_loads product_name reviews tp Hlen analyses _.
    assert (Hne : reviews <> []) by (destruct reviews; [simpl in Hlen; lia | discriminate]).
    destruct (calculate_rating_fields json_loads fsqrt product_name reviews tp Hne)
      as (_ & _ & _ & Hrel & _).
    rewrite Hrel. apply round2_near_eq. fold analyses.
    rewrite (Hmany analyses); [reflexivity|].
    unfold analyses. rewrite analyze_each_length, length_firstn. lia.
  - intros json_loads product_name review tp.
    destruct (calculate_rating_fields json_loads fsqrt product_name [review] tp
                ltac:(discriminate)) as (_ & _ & _ & Hrel & _).
    rewrite Hrel, Hfew; [reflexivity|].
    rewrite analyze_each_length. simpl. lia.
  - intros w p1 c1 p2 c2 analyses.
    assert (Hvar : variance (map sentiment analyses) == 2) by reflexivity.
    split; [|split; [exact Hvar|]].
    + unfold weighted_sentiment.
      destruct (Qlt_bool 0 (total_weight analyses)); [|reflexivity].
      unfold analyses. cbn [map sentiment credibility_weight].
      rewrite !Qsum_cons, Qsum_nil.
      setoid_replace (1 * w + (-1 * w + 0)) with 0 by ring.
      unfold Qdiv. apply Qmult_0_l.
    + apply Hone; [simpl; lia | rewrite Hvar; lra].
Qed.

Lemma reliability_is_one_minus_stdev_witness :
  variance [5 # 10; - (25 # 100)] == sample_variance [5 # 10; - (25 # 100)] /\
  near (reliability_score
          (fst (calculate_rating Samples.scored_loads fixed_sqrt "Headphones" Samples.duo Samples.duo_tape)))
       (Qmax 0 (1 - fixed_sqrt
                      (variance (map sentiment
                         (fst (analyze_each Samples.scored_loads (firstn 20 Samples.duo) Samples.duo_tape)))))) /\
  reliability_score
    (fst (calculate_rating Samples.scored_loads fixed_sqrt "Headphones"
            [Samples.thread] [Samples.glad_reply])) == 5 # 10 /\
  reliability fixed_sqrt Samples.weightless = 5 # 10 /\
  reliability fixed_sqrt [mkAnalysis 1 [] [] (6 # 10); mkAnalysis (-1) [] [] (6 # 10)]
  == 0.
Proof.
  destruct (reliability_is_one_minus_stdev fixed_sqrt fixed_sqrt_ge_1)
    as (Hvar & Hrating & Hsingle & _ & Hfew & Hpair).
  split; [apply Hvar|]. split; [|split; [apply Hsingle | split]].
  - apply Hrating; [simpl; lia|]. vm_compute. repeat constructor; discriminate.
  - apply Hfew. simpl. lia.
  - apply Hpair.
Defined.

(** C5: on the empty review list [calculate_rating] returns the fixed neutral
    rating (score 50, confidence 0, no source, no pros, no cons, the no-data
    summary) without calling the backend, and the empty list is the only
    input on which it returns that rating. *)
Theorem empty_reviews_neutral (json_loads : string -> option Payload)
    (fsqrt : Q -> Q) (product_name : string) (tp : tape) :
  calculate_rating json_loads fsqrt product_name [] tp = (NO_REVIEWS, tp) /\
  (ai_rating NO_REVIEWS = 50%Z /\ confidence NO_REVIEWS = 0 /\
   sources_analyzed NO_REVIEWS = 0%Z /\
   rating_pros NO_REVIEWS = [] /\ rating_cons NO_REVIEWS = [] /\
   summary NO_REVIEWS = "No reviews available for analysis."%string) /\
  (forall reviews,
      fst (calculate_rating json_loads fsqrt product_name reviews tp) = NO_REVIEWS
      <-> reviews = []).
Proof.
  split; [reflexivity|]. split; [repeat split|].
  intro reviews. split.
  - intro H. destruct reviews as [|review rest]; [reflexivity|]. exfalso.
    destruct (calculate_rating_fields json_loads fsqrt product_name
                (review :: rest) tp ltac:(discriminate))
      as (_ & _ & _ & _ & _ & _ & Hn & _).
    rewrite H in Hn. unfold len in Hn. simpl in Hn. lia.
  - intros ->. reflexivity.
Qed.

Lemma empty_reviews_neutral_witness :
  fst (calculate_rating no_loads fixed_sqrt "Headphones" [] [Raises]) = NO_REVIEWS.
Proof.
  apply (proj2 (proj2 (empty_reviews_neutral no_loads fixed_sqrt "Headphones"
                         [Raises]))).
  reflexivity.
Defined.




(** ** The analyzer's fallback *)

Lemma until_close_none (s : string) :
  has_char close_brace s = false -> until_close s = None.
Proof.
  induction s as [|c s IH]; simpl; [reflexivity|].
  destruct (Ascii.eqb c close_brace); simpl; [discriminate|].
  intro H. now rewrite IH.
Qed.

Lemma re_search_no_open (text : string) :
  has_char open_brace text = false -> re_search text = None.
Proof.
  induction text as [|c s IH]; simpl; [reflexivity|].
  destruct (Ascii.eqb c open_brace); simpl; [discriminate | exact IH].
Qed.

Lemma re_search_no_close (text : string) :
  has_char close_brace text = false -> re_search text = None.
Proof.
  induction text as [|c s IH]; simpl; [reflexivity|].
  intro H. apply orb_false_iff in H. destruct H as [_ H].
  rewrite (until_close_none s H), (IH H). now destruct (Ascii.eqb c open_brace).
Qed.

(** C7: when the backend call raises, or its reply holds no match for the
    fragment pattern (in particular no opening or no closing brace), or the
    matched fragment cannot be decoded, [analyze_review] returns the neutral
    analysis: sentiment 0, no pros, no cons, and the credibility weight
    computed from the source type and the upvotes; and a batch yields one
    analysis per review whatever the backend does. *)
Theorem analyzer_falls_back (json_loads : string -> option Payload) :
  (forall review tp,
      (fst (messages_create tp) = Raises \/
       exists text,
         fst (messages_create tp) = Text text /\
         (re_search text = None \/
          has_char open_brace text = false \/
          has_char close_brace text = false \/
          exists fragment,
            re_search text = Some fragment /\ json_loads fragment = None)) ->
      fst (analyze_review json_loads review tp)
      = mkAnalysis 0 [] []
          (Qmin 1 (base_credibility (source_type review)
                   + engagement_bonus (upvotes review)))) /\
  (forall reviews tp,
      List.length (fst (analyze_each json_loads reviews tp)) = List.length reviews).
Proof.
  split; [|apply analyze_each_length].
  intros review tp H. unfold analyze_review.
  destruct (messages_create tp) as [r tp']. cbn [fst] in *.
  assert (Hnone : try_analyze json_loads (credibility review) r = None).
  { destruct H as [->|(text & -> & H)]; [reflexivity|]. unfold try_analyze.
    destruct H as [H|[H|[H|(fragment & Hf & Hj)]]].
    - now rewrite H.
    - now rewrite (re_search_no_open text H).
    - now rewrite (re_search_no_close text H).
    - now rewrite Hf, Hj. }
  rewrite Hnone. reflexivity.
Qed.

Lemma analyzer_falls_back_witness :
  fst (analyze_review Samples.wild_loads Samples.thread [Samples.prose_reply])
  = mkAnalysis 0 [] [] (Qmin 1 ((60 # 100) + 0)) /\
  fst (analyze_review Samples.wild_loads Samples.editorial [Raises])
  = mkAnalysis 0 [] [] (Qmin 1 ((95 # 100) + 0)) /\
  fst (analyze_review Samples.wild_loads Samples.editorial [Text "{pros: none}"])
  = mkAnalysis 0 [] [] (Qmin 1 ((95 # 100) + 0)).
Proof.
  destruct (analyzer_falls_back Samples.wild_loads) as [Hneutral _].
  split; [|split]; apply Hneutral.
  - right. exists "I could not read this review."%string.
    split; [reflexivity|]. right. left. reflexivity.
  - left. reflexivity.
  - right. exists "{pros: none}"%string.
    split; [reflexivity|]. do 3 right. exists "{pros: none}"%string.
    split; reflexivity.
Defined.

(** ** Phrases: normalisation *)

Section PhraseFacts.

Local Open Scope string_scope.












End PhraseFacts.

(** ** Phrases: the frequency dictionary *)

Section DictFacts.

Lemma mem_In (k : string) (l : list string) : mem k l = true <-> In k l.
Proof.
  unfold mem. rewrite existsb_exists. split.
  - intros (x & Hin & Heq). apply String.eqb_eq in Heq. now subst.
  - intro H. exists k. split; [exact H | apply String.eqb_refl].
Qed.

Lemma dict_get_set {V : Type} (d : list (string * V)) (k k' : string) (v default : V) :
  dict_get (dict_set d k v) k' default
  = if String.eqb k k' then v else dict_get d k' default.
Proof.
  induction d as [|[k0 v0] d IH]; simpl.
  - reflexivity.
  - destruct (String.eqb_spec k0 k) as [->|Hne]; simpl.
    + now destruct (String.eqb k k').
    + rewrite IH. destruct (String.eqb_spec k0 k') as [->|Hne'].
      * destruct (String.eqb_spec k k'); [congruence | reflexivity].
      * reflexivity.
Qed.

Lemma dict_set_keys {V : Type} (d : list (string * V)) (k : string) (v : V) :
  map fst (dict_set d k v)
  = if mem k (map fst d) then map fst d else map fst d ++ [k].
Proof.
  induction d as [|[k0 v0] d IH]; simpl; [reflexivity|].
  rewrite (String.eqb_sym k k0).
  destruct (String.eqb k0 k); simpl; [reflexivity|].
  rewrite IH. now destruct (mem k (map fst d)).
Qed.

Lemma count_phrases_app (d : list (string * Z)) (l1 l2 : list string) :
  count_phrases d (l1 ++ l2) = count_phrases (count_phrases d l1) l2.
Proof. apply fold_left_app. Qed.

Lemma fold_count_phrases {A : Type} (f : A -> list string) (l : list A)
    (d : list (string * Z)) :
  fold_left (fun d a => count_phrases d (f a)) l d = count_phrases d (flat_map f l).
Proof.
  revert d. induction l as [|a l IH]; intro d; simpl; [reflexivity|].
  now rewrite IH, count_phrases_app.
Qed.

Lemma nonempty_eqb (k k' : string) :
  nonempty k = false -> nonempty k' = true -> String.eqb k k' = false.
Proof.
  destruct k; [|discriminate]. destruct k'; [discriminate | reflexivity].
Qed.

Lemma count_phrase_get (d : list (string * Z)) (p k : string) :
  nonempty k = true ->
  dict_get (count_phrase d p) k 0%Z
  = (dict_get d k 0 + if String.eqb (phrase_key p) k then 1 else 0)%Z.
Proof.
  intro Hk. unfold count_phrase. fold (phrase_key p).
  destruct (nonempty (phrase_key p)) eqn:E.
  - rewrite dict_get_set.
    destruct (String.eqb_spec (phrase_key p) k) as [->|_]; lia.
  - rewrite (nonempty_eqb _ _ E Hk). lia.
Qed.

Lemma count_phrases_get (phrases : list string) (d : list (string * Z)) (k : string) :
  nonempty k = true ->
  dict_get (count_phrases d phrases) k 0%Z
  = (dict_get d k 0 + occurrences k phrases)%Z.
Proof.
  intro Hk. revert d. unfold occurrences, len.
  induction phrases as [|p ps IH]; intro d; simpl.
  - lia.
  - unfold count_phrases in *. simpl. rewrite IH, (count_phrase_get d p k Hk).
    destruct (String.eqb (phrase_key p) k); simpl List.length; lia.
Qed.

Lemma first_seen_In (k : string) (l : list string) : In k (first_seen l) <-> In k l.
Proof.
  induction l as [|x l IH]; simpl; [tauto|].
  rewrite filter_In, IH, negb_true_iff.
  destruct (String.eqb_spec x k) as [->|Hne]; [tauto|].
  split; [tauto | intros [H|H]; [congruence | tauto]].
Qed.

Lemma mem_first_seen (k : string) (l : list string) : mem k (first_seen l) = mem k l.
Proof.
  apply eq_true_iff_eq. rewrite !mem_In. apply first_seen_In.
Qed.

Lemma first_seen_snoc (l : list string) (k : string) :
  first_seen (l ++ [k])
  = if mem k l then first_seen l else first_seen l ++ [k].
Proof.
  induction l as [|x l IH]; simpl; [reflexivity|].
  rewrite IH. unfold mem in *. simpl. rewrite (String.eqb_sym k x).
  destruct (existsb (String.eqb k) l); simpl.
  - now rewrite orb_true_r.
  - rewrite orb_false_r, filter_app. simpl.
    destruct (String.eqb x k); simpl; [now rewrite app_nil_r | reflexivity].
Qed.

Lemma count_phrases_keys (phrases : list string) :
  map fst (count_phrases [] phrases)
  = first_seen (filter nonempty (map phrase_key phrases)).
Proof.
  induction phrases as [|p ps IH] using rev_ind; [reflexivity|].
  rewrite count_phrases_app, map_app, filter_app. simpl.
  unfold count_phrase at 1. fold (phrase_key p).
  destruct (nonempty (phrase_key p)) eqn:E.
  - rewrite dict_set_keys, first_seen_snoc, IH, mem_first_seen. reflexivity.
  - now rewrite app_nil_r.
Qed.

End DictFacts.

(** ** Phrases: the ranking *)

Section SortFacts.

Lemma insert_desc_perm (x : string * Z) (l : list (string * Z)) :
  Permutation (insert_desc x l) (x :: l).
Proof.
  induction l as [|y l IH]; simpl; [reflexivity|].
  destruct (snd x <? snd y)%Z; [|reflexivity].
  rewrite IH. apply perm_swap.
Qed.

Lemma insert_desc_sorted (x : string * Z) (l : list (string * Z)) :
  StronglySorted count_ge l -> StronglySorted count_ge (insert_desc x l).
Proof.
  induction 1 as [|y l Hs IH Hy]; simpl.
  - repeat constructor.
  - destruct (Z.ltb_spec (snd x) (snd y)).
    + constructor; [exact IH|].
      rewrite (insert_desc_perm x l). constructor; [unfold count_ge; lia | exact Hy].
    + constructor; [now constructor|]. constructor; [unfold count_ge; lia|].
      eapply Forall_impl; [|exact Hy]. unfold count_ge. intros; lia.
Qed.


Lemma sorted_desc_perm (d : list (string * Z)) : Permutation (sorted_desc d) d.
Proof.
  induction d as [|x d IH]; simpl; [constructor|].
  rewrite insert_desc_perm. now constructor.
Qed.

Lemma sorted_desc_sorted (d : list (string * Z)) : StronglySorted count_ge (sorted_desc d).
Proof.
  induction d as [|x d IH]; simpl; [constructor | now apply insert_desc_sorted].
Qed.


End SortFacts.

Section CapitalizeFacts.

Lemma lower_char_idem (c : ascii) : lower_char (lower_char c) = lower_char c.
Proof. destruct c as [[] [] [] [] [] [] [] []]; reflexivity. Qed.

Lemma is_space_lower_char (c : ascii) : is_space (lower_char c) = is_space c.
Proof. destruct c as [[] [] [] [] [] [] [] []]; reflexivity. Qed.

Lemma lower_idem (s : string) : lower (lower s) = lower s.
Proof.
  induction s as [|c s IH]; simpl; [reflexivity|].
  now rewrite lower_char_idem, IH.
Qed.

Lemma lower_lstrip (s : string) : lower (lstrip s) = lstrip (lower s).
Proof.
  induction s as [|c s IH]; simpl; [reflexivity|].
  rewrite is_space_lower_char. now destruct (is_space c).
Qed.

Lemma lower_rstrip (s : string) : lower (rstrip s) = rstrip (lower s).
Proof.
  induction s as [|c s IH]; simpl; [reflexivity|].
  rewrite <- IH, is_space_lower_char.
  destruct (rstrip s); simpl; [now destruct (is_space c) | reflexivity].
Qed.

Lemma lower_phrase_key (p : string) : lower (phrase_key p) = phrase_key p.
Proof.
  unfold phrase_key, strip. now rewrite lower_rstrip, lower_lstrip, lower_idem.
Qed.


End CapitalizeFacts.



(** The ranking on a small batch: three keys seen twice keep the order in
    which they first appeared, ahead of the key seen once. *)
Example ranking_of_a_batch :
  map (fun p => capitalize (fst p)) (top5 (all_pros Samples.batch))
  = ["Great sound"; "Comfy"; "Cheap"; "Light"]%string.
Proof. reflexivity. Qed.


(** * Properties of the rest of the pipeline *)

(** ** The model on small inputs *)

Example split_drops_white_space :
  split "  Great   sound, weak battery " = ["Great"; "sound,"; "weak"; "battery"]%string.
Proof. reflexivity. Qed.

Example normalize_content_collapses :
  normalize_content "  Great   sound,   weak battery " = "Great sound, weak battery"%string.
Proof. reflexivity. Qed.

Example normalize_content_truncates :
  String.length (normalize_content (String.concat " " (repeat "ab"%string 3000)))
  = (5000 + 3)%nat.
Proof. vm_compute. reflexivity. Qed.

Example contains_is_substring :
  contains "pc" "upcoming console" = true /\ contains "tv" "laptop" = false.
Proof. split; reflexivity. Qed.

Example audio_runs_both_forums :
  scrapers_for (Some "audio"%string)
  = [reddit_scraper; youtube_scraper; wirecutter_scraper; rtings_scraper;
     techradar_scraper; headfi_scraper; avsforum_scraper] /\
  scrapers_for None
  = [reddit_scraper; youtube_scraper; wirecutter_scraper; rtings_scraper;
     techradar_scraper].
Proof. split; reflexivity. Qed.

Example subreddits_for_headphones :
  Reddit._get_subreddits_for_query "Sony WH-1000XM5 Headphones"
  = ["BuyItForLife"; "ProductTesting"; "AskReddit"; "AmazonTopRated";
     "gadgets"; "technology"; "techsupport"; "headphones";
     "HeadphoneAdvice"; "audiophile"; "budgetaudiophile"]%string.
Proof. reflexivity. Qed.

Example search_with_limit_zero_returns_one :
  List.length
    (Reddit.search true
       [Reddit.mkPost "Headphones" false "" None "AskReddit" "/r/AskReddit/1" 3 4;
        Reddit.mkPost "More" false "" None "AskReddit" "/r/AskReddit/2" 3 4]
       "headphones" 0)
  = 1%nat.
Proof. reflexivity. Qed.

(** ** Content normalisation *)

Section NormalizeFacts.

Local Open Scope string_scope.

Lemma split_cons_space (c : ascii) (s : string) :
  is_space c = true -> split (String c s) = split s.
Proof. intro Hc. simpl. now rewrite Hc. Qed.

Lemma split_cons_break (c c' : ascii) (s : string) :
  is_space c = false -> is_space c' = true ->
  split (String c (String c' s)) = String c "" :: split s.
Proof. intros Hc Hc'. simpl. now rewrite Hc, Hc'. Qed.

Lemma split_cons_glue (c c' : ascii) (s : string) :
  is_space c = false -> is_space c' = false ->
  split (String c (String c' s))
  = match split (String c' s) with
    | w :: ws => String c w :: ws
    | [] => [String c ""]
    end.
Proof. intros Hc Hc'. simpl. now rewrite Hc, Hc'. Qed.

Lemma split_head_solid (c : ascii) (s : string) :
  is_space c = false -> split (String c s) <> [].
Proof.
  intro Hc. simpl. rewrite Hc. destruct s as [|c' s']; [discriminate|].
  destruct (is_space c'); [discriminate|]. now destruct (split (String c' s')).
Qed.

Lemma split_words (s : string) : Forall (fun w => word w = true) (split s).
Proof.
  induction s as [|c s IH]; [constructor|].
  cbn [split]. destruct (is_space c) eqn:Hc; [exact IH|].
  destruct s as [|c' s']; [repeat constructor; unfold word; simpl; now rewrite Hc|].
  destruct (is_space c') eqn:Hc'.
  - constructor; [unfold word; simpl; now rewrite Hc | exact IH].
  - pose proof (split_head_solid c' s' Hc') as Hne.
    destruct (split (String c' s')) as [|w ws]; [congruence|].
    inversion IH as [|? ? Hw Hws]; subst. constructor; [|exact Hws].
    unfold word in *. simpl. rewrite Hc. simpl.
    now apply andb_true_iff in Hw.
Qed.

Lemma split_blank (s : string) : split s = [] <-> blank s = true.
Proof.
  induction s as [|c s IH]; [simpl; tauto|].
  destruct (is_space c) eqn:Hc.
  - simpl. rewrite Hc. exact IH.
  - split.
    + intro H. now apply split_head_solid in H.
    + simpl. rewrite Hc. discriminate.
Qed.

Lemma split_app_word (w t : string) :
  word w = true -> split (w ++ " " ++ t) = w :: split t.
Proof.
  unfold word. intro H. apply andb_true_iff in H. destruct H as [Hne Hw].
  induction w as [|c w IH]; [discriminate|]. clear Hne.
  simpl in Hw. apply andb_true_iff in Hw. destruct Hw as [Hc Hw].
  apply negb_true_iff in Hc.
  destruct w as [|c' w'].
  - simpl. now rewrite Hc.
  - assert (Hc' : is_space c' = false).
    { simpl in Hw. apply andb_true_iff in Hw. now apply negb_true_iff. }
    change (String c (String c' w') ++ " " ++ t)
      with (String c (String c' (w' ++ " " ++ t))).
    rewrite (split_cons_glue _ _ _ Hc Hc').
    change (String c' (w' ++ " " ++ t)) with (String c' w' ++ " " ++ t).
    rewrite (IH eq_refl Hw). reflexivity.
Qed.

Lemma split_word (w : string) : word w = true -> split w = [w].
Proof.
  unfold word. intro H. apply andb_true_iff in H. destruct H as [Hne Hw].
  induction w as [|c w IH]; [discriminate|]. clear Hne.
  simpl in Hw. apply andb_true_iff in Hw. destruct Hw as [Hc Hw].
  apply negb_true_iff in Hc.
  destruct w as [|c' w']; [simpl; now rewrite Hc|].
  assert (Hc' : is_space c' = false).
  { simpl in Hw. apply andb_true_iff in Hw. now apply negb_true_iff. }
  rewrite (split_cons_glue _ _ _ Hc Hc'). now rewrite (IH eq_refl Hw).
Qed.

Lemma split_concat (ws : list string) :
  Forall (fun w => word w = true) ws -> split (String.concat " " ws) = ws.
Proof.
  induction 1 as [|w ws Hw Hws IH]; [reflexivity|].
  destruct ws as [|w' ws']; [now apply split_word|].
  change (String.concat " " (w :: w' :: ws'))
    with (w ++ " " ++ String.concat " " (w' :: ws')).
  now rewrite split_app_word, IH.
Qed.

Lemma split_collapse (s : string) : split (String.concat " " (split s)) = split s.
Proof. apply split_concat, split_words. Qed.

Lemma solid_spaced (w : string) : solid w = true -> spaced w = true.
Proof.
  induction w as [|c w IH]; [reflexivity|]. simpl. intro H.
  apply andb_true_iff in H. destruct H as [Hc Hw].
  apply negb_true_iff in Hc. rewrite Hc. now apply IH.
Qed.

Lemma word_starts_solid (w t : string) : word w = true -> starts_solid (w ++ t) = true.
Proof.
  unfold word. destruct w as [|c w]; [discriminate|]. simpl. intro H.
  now apply andb_true_iff in H.
Qed.

Lemma spaced_word_app (w t : string) :
  word w = true -> spaced t = true -> starts_solid t = true ->
  spaced (w ++ " " ++ t) = true.
Proof.
  unfold word. intros H Ht Hs. apply andb_true_iff in H. destruct H as [Hne Hw].
  induction w as [|c w IH]; [discriminate|]. clear Hne.
  simpl in Hw. apply andb_true_iff in Hw. destruct Hw as [Hc Hw].
  apply negb_true_iff in Hc.
  change (spaced (String c (w ++ " " ++ t)) = true). cbn [spaced]. rewrite Hc.
  destruct w as [|c' w']; [|now apply IH].
  change (spaced (String " " t) = true). cbn [spaced].
  change (is_space " ") with true. cbv iota.
  destruct t as [|c'' t'']; [discriminate|]. simpl in Hs.
  rewrite Hs. simpl. exact Ht.
Qed.

Lemma concat_words (ws : list string) :
  Forall (fun w => word w = true) ws -> ws <> [] ->
  spaced (String.concat " " ws) = true /\
  starts_solid (String.concat " " ws) = true.
Proof.
  induction 1 as [|w ws Hw Hws IH]; [congruence|]. intros _.
  destruct ws as [|w' ws'].
  - simpl. split.
    + apply solid_spaced. unfold word in Hw. now apply andb_true_iff in Hw.
    + rewrite <- (word_starts_solid w "" Hw). f_equal.
      clear. induction w as [|c w IH]; [reflexivity | simpl; now rewrite <- IH].
  - change (String.concat " " (w :: w' :: ws'))
      with (w ++ " " ++ String.concat " " (w' :: ws')).
    destruct (IH ltac:(discriminate)) as [Hsp Hst].
    split; [now apply spaced_word_app | now apply word_starts_solid].
Qed.

Lemma tidy_collapse (s : string) : tidy (String.concat " " (split s)) = true.
Proof.
  pose proof (split_words s) as Hw. unfold tidy.
  destruct (split s) as [|w ws] eqn:E; [reflexivity|].
  destruct (concat_words (w :: ws) Hw ltac:(discriminate)) as [Hsp Hst].
  rewrite Hsp. unfold starts_solid in Hst.
  now destruct (String.concat " " (w :: ws)).
Qed.

Lemma lstrip_starts_solid (s : string) : starts_solid s = true -> lstrip s = s.
Proof.
  destruct s as [|c s]; [discriminate|]. simpl. intro H.
  apply negb_true_iff in H. now rewrite H.
Qed.

Lemma collapse_spaced (t : string) :
  spaced t = true -> String.concat " " (split t) = lstrip t.
Proof.
  induction t as [|c t IH]; [reflexivity|].
  intro Ht. cbn [spaced] in Ht. destruct (is_space c) eqn:Hc.
  - apply andb_true_iff in Ht. destruct Ht as [_ Ht].
    rewrite (split_cons_space _ _ Hc). cbn [lstrip]. rewrite Hc. now apply IH.
  - cbn [lstrip]. rewrite Hc. specialize (IH Ht).
    destruct t as [|c' t']; [simpl; now rewrite Hc|].
    destruct (is_space c') eqn:Hc'.
    + cbn [spaced] in Ht. rewrite Hc' in Ht.
      apply andb_true_iff in Ht. destruct Ht as [Ht _].
      apply andb_true_iff in Ht. destruct Ht as [Heq Hnext].
      apply Ascii.eqb_eq in Heq. subst c'.
      rewrite (split_cons_break _ _ _ Hc Hc').
      rewrite (split_cons_space _ _ Hc') in IH. cbn [lstrip] in IH.
      rewrite Hc' in IH.
      destruct t' as [|c'' t'']; [discriminate|].
      apply negb_true_iff in Hnext.
      pose proof (split_head_solid c'' t'' Hnext) as Hne.
      destruct (split (String c'' t'')) as [|w ws]; [congruence|].
      change (String.concat " " (String c "" :: w :: ws))
        with (String c (String " " (String.concat " " (w :: ws)))).
      rewrite IH. rewrite lstrip_starts_solid; [reflexivity|].
      simpl. now rewrite Hnext.
    + rewrite (split_cons_glue _ _ _ Hc Hc').
      pose proof (split_head_solid c' t' Hc') as Hne.
      destruct (split (String c' t')) as [|w ws]; [congruence|].
      cbn [lstrip] in IH. rewrite Hc' in IH. rewrite <- IH.
      destruct ws; reflexivity.
Qed.

Lemma collapse_tidy (t : string) :
  tidy t = true -> String.concat " " (split t) = t.
Proof.
  unfold tidy. intro H. apply andb_true_iff in H. destruct H as [Hsp Hst].
  rewrite (collapse_spaced t Hsp).
  destruct t as [|c t]; [reflexivity|]. apply lstrip_starts_solid. exact Hst.
Qed.

Lemma string_length_app (a b : string) :
  String.length (a ++ b) = (String.length a + String.length b)%nat.
Proof. induction a as [|c a IH]; simpl; [reflexivity | now rewrite IH]. Qed.

Lemma length_prefix (n : nat) (s : string) :
  String.length (substring 0 n s) = Nat.min n (String.length s).
Proof.
  revert n. induction s as [|c s IH]; intros [|n]; simpl; try reflexivity.
  now rewrite IH.
Qed.

Lemma prefix_of_app (n : nat) (s t : string) :
  (n <= String.length s)%nat -> substring 0 n (s ++ t) = substring 0 n s.
Proof.
  revert n. induction s as [|c s IH]; intros [|n] H; simpl in *;
    try reflexivity; try lia.
  - now destruct t.
  - rewrite IH; [reflexivity | lia].
Qed.

Lemma prefix_of_prefix (n : nat) (s t : string) :
  (n <= String.length s)%nat ->
  substring 0 n (substring 0 n s ++ t) = substring 0 n s.
Proof.
  intro H. rewrite prefix_of_app.
  - clear H. revert n. induction s as [|c s IH]; intros [|n]; try reflexivity.
    cbn [substring]. now rewrite IH.
  - rewrite length_prefix. lia.
Qed.

Lemma spaced_truncated (n : nat) (t : string) :
  spaced t = true -> spaced (substring 0 n t ++ "...") = true.
Proof.
  revert n. induction t as [|c t IH]; intros [|n] Ht; try reflexivity.
  change (spaced (String c (substring 0 n t ++ "...")) = true).
  cbn [spaced] in *. destruct (is_space c); [|now apply IH].
  apply andb_true_iff in Ht. destruct Ht as [Ht Hsp].
  apply andb_true_iff in Ht. destruct Ht as [Heq Hnext].
  rewrite Heq, (IH n Hsp). simpl.
  destruct t as [|c' t']; [discriminate|].
  destruct n; [reflexivity|]. simpl. now rewrite Hnext.
Qed.

Lemma tidy_truncated (n : nat) (t : string) :
  tidy t = true -> tidy (substring 0 n t ++ "...") = true.
Proof.
  unfold tidy. intro H. apply andb_true_iff in H. destruct H as [Hsp Hst].
  rewrite (spaced_truncated n t Hsp). simpl.
  destruct t as [|c t]; [now destruct n|]. destruct n; [reflexivity|].
  simpl. exact Hst.
Qed.

End NormalizeFacts.

(** [normalize_content] with its bound left open. *)
Lemma normalize_content_unfold (content : string) :
  normalize_content content
  = if nonempty content then
      if (5000 <? String.length (String.concat " " (split content)))%nat
      then (substring 0 5000 (String.concat " " (split content)) ++ "...")%string
      else String.concat " " (split content)
    else EmptyString.
Proof. reflexivity. Qed.

Lemma normalize_content_is_tidy (content : string) :
  tidy (normalize_content content) = true.
Proof.
  rewrite normalize_content_unfold. generalize 5000%nat. intro n.
  destruct (nonempty content); [|reflexivity].
  destruct (n <? _)%nat.
  - apply tidy_truncated, tidy_collapse.
  - apply tidy_collapse.
Qed.

(** X1: whatever the text, the normalised content holds white space only as
    single spaces between other characters, and neither begins nor ends
    with white space. *)
Theorem normalize_content_tidy (content : string) :
  tidy (normalize_content content) = true /\
  strip (normalize_content content) = normalize_content content.
Proof.
  pose proof (normalize_content_is_tidy content) as H. split; [exact H|].
  unfold tidy in H. apply andb_true_iff in H. destruct H as [Hsp Hst].
  unfold strip.
  assert (Hl : lstrip (normalize_content content) = normalize_content content).
  { destruct (normalize_content content) as [|c t]; [reflexivity|].
    now apply lstrip_starts_solid. }
  rewrite Hl. clear Hl Hst. revert Hsp.
  generalize (normalize_content content). intro t.
  induction t as [|c t IH]; [reflexivity|]. cbn [spaced rstrip].
  destruct (is_space c) eqn:Hc.
  - intro H. apply andb_true_iff in H. destruct H as [H Hsp].
    apply andb_true_iff in H. destruct H as [_ Hnext].
    rewrite (IH Hsp). destruct t; [discriminate Hnext | reflexivity].
  - intro Hsp. rewrite (IH Hsp). now destruct t.
Qed.

(** X2: the normalised content is at most 5003 characters long: 5000 of the
    text and the three of the marker. *)
Theorem normalize_content_length (content : string) :
  (String.length (normalize_content content) <= 5000 + 3)%nat.
Proof.
  rewrite normalize_content_unfold. generalize 5000%nat. intro n.
  destruct (nonempty content); [|simpl; lia].
  destruct (Nat.ltb_spec n (String.length (String.concat " " (split content)))).
  - rewrite string_length_app, length_prefix. simpl. lia.
  - lia.
Qed.

(** X3: normalising twice is normalising once, also when the text was
    truncated. *)
Theorem normalize_content_idempotent (content : string) :
  normalize_content (normalize_content content) = normalize_content content.
Proof.
  pose proof (normalize_content_is_tidy content) as Htidy.
  rewrite (normalize_content_unfold (normalize_content content)).
  rewrite (collapse_tidy _ Htidy).
  destruct (nonempty (normalize_content content)) eqn:Hne;
    [|now destruct (normalize_content content)].
  clear Htidy Hne. rewrite normalize_content_unfold.
  generalize 5000%nat. intro n.
  destruct (nonempty content); [|now destruct (n <? 0)%nat].
  set (t := String.concat " " (split content)).
  destruct (Nat.ltb_spec n (String.length t)) as [Hlong|Hshort].
  - assert (Hlen : (n < String.length (substring 0 n t ++ "..."))%nat)
      by (rewrite string_length_app, length_prefix; simpl; lia).
    apply Nat.ltb_lt in Hlen. rewrite Hlen.
    rewrite prefix_of_prefix; [reflexivity | lia].
  - apply Nat.ltb_ge in Hshort. now rewrite Hshort.
Qed.

(** X4: the normalised content is empty exactly when the text is empty or
    white space only. *)
Theorem normalize_content_empty (content : string) :
  normalize_content content = EmptyString <-> blank content = true.
Proof.
  rewrite normalize_content_unfold. generalize 5000%nat. intro n. split.
  - destruct (nonempty content) eqn:Hne; [|now destruct content].
    pose proof (split_words content) as Hw.
    destruct (split content) as [|w ws] eqn:E; [intros _; now apply split_blank|].
    destruct (concat_words (w :: ws) Hw ltac:(discriminate)) as [_ Hst].
    destruct (n <? _)%nat.
    + intro H. exfalso.
      destruct (substring 0 n (String.concat " " (w :: ws))); discriminate H.
    + intro H. rewrite H in Hst. discriminate.
  - intro H. apply split_blank in H. rewrite H. simpl.
    destruct (nonempty content); [|reflexivity]. now destruct n.
Qed.

(** X5: when the collapsed text fits in 5000 characters, normalisation keeps
    its words: splitting the result gives the words of the text. *)
Theorem normalize_content_keeps_words (content : string) :
  (String.length (String.concat " " (split content)) <= 5000)%nat ->
  split (normalize_content content) = split content.
Proof.
  rewrite normalize_content_unfold. generalize 5000%nat. intros n H.
  destruct content as [|c s]; [reflexivity|]. cbn [nonempty].
  apply Nat.ltb_ge in H. rewrite H. apply split_collapse.
Qed.

Lemma normalize_content_keeps_words_witness :
  split (normalize_content "  Great   sound,
 weak battery ")
  = ["Great"; "sound,"; "weak"; "battery"]%string.
Proof.
  rewrite normalize_content_keeps_words; [reflexivity|].
  apply Nat.leb_le. vm_compute. reflexivity.
Defined.

Lemma normalize_content_empty_witness :
  normalize_content "   " = EmptyString.
Proof. apply (proj2 (normalize_content_empty "   ")). reflexivity. Defined.

(** ** The fragment pattern *)

Section FragmentFacts.

Local Open Scope string_scope.

Lemma until_close_spec (s body : string) :
  until_close s = Some body ->
  has_char close_brace body = false /\
  exists post, s = body ++ String close_brace post.
Proof.
  revert body. induction s as [|c s IH]; intro body; simpl; [discriminate|].
  destruct (Ascii.eqb_spec c close_brace) as [->|Hne].
  - intros [= <-]. split; [reflexivity | now exists s].
  - destruct (until_close s) as [b|]; [|discriminate]. intros [= <-].
    destruct (IH b eq_refl) as [Hb [post ->]]. split.
    + simpl. rewrite Hb. now apply Ascii.eqb_neq in Hne as ->.
    + now exists post.
Qed.

Lemma until_close_app (body post : string) :
  has_char close_brace body = false ->
  until_close (body ++ String close_brace post) = Some body.
Proof.
  induction body as [|c body IH]; simpl; [reflexivity|].
  intro H. apply orb_false_iff in H. destruct H as [Hc Hb].
  now rewrite Hc, (IH Hb).
Qed.

Lemma app_assoc_string (a b c : string) : (a ++ b) ++ c = a ++ b ++ c.
Proof. induction a as [|x a IH]; simpl; [reflexivity | now rewrite IH]. Qed.

(** X6: a match of the fragment pattern is an opening brace, one or more
    characters none of which is a closing brace, and a closing brace, and it
    occurs in the reply; and a reply that holds such a fragment always has a
    match. *)
Theorem re_search_fragment (text : string) :
  (forall fragment, re_search text = Some fragment ->
     exists pre body post,
       text = pre ++ fragment ++ post /\
       fragment = String open_brace (body ++ String close_brace "") /\
       nonempty body = true /\ has_char close_brace body = false) /\
  (forall pre body post,
     text = pre ++ String open_brace (body ++ String close_brace post) ->
     nonempty body = true -> has_char close_brace body = false ->
     re_search text <> None).
Proof.
  split.
  - induction text as [|c rest IH]; intro fragment; simpl; [discriminate|].
    assert (Hrest : re_search rest = Some fragment ->
              exists pre body post,
                String c rest = pre ++ fragment ++ post /\
                fragment = String open_brace (body ++ String close_brace "") /\
                nonempty body = true /\ has_char close_brace body = false).
    { intro H. destruct (IH fragment H) as (pre & body & post & -> & Hf).
      now exists (String c pre), body, post. }
    destruct (Ascii.eqb_spec c open_brace) as [->|_]; [|exact Hrest].
    destruct (until_close rest) as [[|b body]|] eqn:E; try exact Hrest.
    intros [= <-]. destruct (until_close_spec _ _ E) as [Hb [post ->]].
    exists "", (String b body), post. repeat split; [|exact Hb].
    simpl. f_equal. f_equal. rewrite app_assoc_string. reflexivity.
  - intros pre body post -> Hne Hb.
    induction pre as [|c pre IH].
    + simpl. rewrite (until_close_app body post Hb).
      destruct body; [discriminate | discriminate].
    + change (re_search (String c (pre ++ String open_brace
                (body ++ String close_brace post))) <> None).
      cbn [re_search].
      destruct (Ascii.eqb c open_brace); [|exact IH].
      destruct (until_close _) as [[|b0 body0]|]; try exact IH. discriminate.
Qed.

Lemma re_search_fragment_witness :
  re_search "Sure: {x: 1} and {y}" <> None /\
  exists pre body post,
    "Sure: {x: 1} and {y}" = pre ++ "{x: 1}" ++ post /\
    "{x: 1}" = String open_brace (body ++ String close_brace "") /\
    nonempty body = true /\ has_char close_brace body = false.
Proof.
  destruct (re_search_fragment "Sure: {x: 1} and {y}") as [Hsound Hcomplete].
  split.
  - apply (Hcomplete "Sure: " "x: 1" " and {y}"); reflexivity.
  - apply Hsound. reflexivity.
Defined.

End FragmentFacts.

(** ** The analyzer and the backend tape *)

Section TapeFacts.

Variable json_loads : string -> option Payload.
Variable fsqrt : Q -> Q.

Lemma analyze_review_tape (review : ScrapedReview) (tp : tape) :
  snd (analyze_review json_loads review tp) = tl tp.
Proof. unfold analyze_review. now destruct tp. Qed.

Lemma analyze_each_tape (reviews : list ScrapedReview) (tp : tape) :
  snd (analyze_each json_loads reviews tp) = skipn (List.length reviews) tp.
Proof.
  revert tp. induction reviews as [|review rest IH]; intro tp; [reflexivity|].
  cbn [analyze_each]. pose proof (analyze_review_tape review tp) as Ht.
  destruct (analyze_review json_loads review tp) as [a tp1]. cbn [snd] in Ht.
  specialize (IH tp1). destruct (analyze_each json_loads rest tp1) as [l tp2].
  cbn [snd] in *. subst. destruct tp; [now rewrite skipn_nil | reflexivity].
Qed.

Lemma analyze_review_head (review : ScrapedReview) (tp tp' : tape) :
  firstn 1 tp = firstn 1 tp' ->
  fst (analyze_review json_loads review tp) = fst (analyze_review json_loads review tp').
Proof.
  unfold analyze_review. destruct tp as [|r t], tp' as [|r' t']; simpl;
    try discriminate; [reflexivity|]. now intros [= ->].
Qed.

Lemma analyze_each_prefix (reviews : list ScrapedReview) (tp tp' : tape) :
  firstn (List.length reviews) tp = firstn (List.length reviews) tp' ->
  fst (analyze_each json_loads reviews tp) = fst (analyze_each json_loads reviews tp').
Proof.
  revert tp tp'. induction reviews as [|review rest IH]; intros tp tp' H;
    [reflexivity|].
  cbn [analyze_each].
  assert (H1 : firstn 1 tp = firstn 1 tp').
  { destruct tp, tp'; simpl in *; try discriminate; [reflexivity|]. now injection H as ->. }
  assert (H2 : firstn (List.length rest) (tl tp) = firstn (List.length rest) (tl tp')).
  { destruct tp, tp'; simpl in *; try discriminate; [reflexivity|]. now injection H. }
  pose proof (analyze_review_head review tp tp' H1) as Ha.
  pose proof (analyze_review_tape review tp) as Ht.
  pose proof (analyze_review_tape review tp') as Ht'.
  destruct (analyze_review json_loads review tp) as [a tp1].
  destruct (analyze_review json_loads review tp') as [a' tp1'].
  cbn [fst snd] in *. subst. specialize (IH _ _ H2).
  destruct (analyze_each json_loads rest (tl tp)) as [l tp2].
  destruct (analyze_each json_loads rest (tl tp')) as [l' tp2'].
  cbn [fst] in *. now subst.
Qed.

(** X7: whatever the backend replies, an analysis holds at most three pros
    and three cons, and the call uses up exactly one reply. *)
Theorem analyze_review_bounded (review : ScrapedReview) (tp : tape) :
  let a := fst (analyze_review json_loads review tp) in
  (List.length (pros a) <= 3)%nat /\ (List.length (cons a) <= 3)%nat /\
  snd (analyze_review json_loads review tp) = tl tp.
Proof.
  split; [|split; [|apply analyze_review_tape]].
  - unfold analyze_review. destruct (messages_create tp) as [r tp']. cbn [fst].
    unfold try_analyze. destruct r as [|text]; [simpl; lia|].
    destruct (re_search text) as [f|]; [|simpl; lia].
    destruct (json_loads f) as [data|]; [|simpl; lia].
    cbn [or_default pros]. rewrite length_firstn. lia.
  - unfold analyze_review. destruct (messages_create tp) as [r tp']. cbn [fst].
    unfold try_analyze. destruct r as [|text]; [simpl; lia|].
    destruct (re_search text) as [f|]; [|simpl; lia].
    destruct (json_loads f) as [data|]; [|simpl; lia].
    cbn [or_default cons]. rewrite length_firstn. lia.
Qed.

Lemma calculate_rating_tape (product_name : string)
    (reviews : list ScrapedReview) (tp : tape) :
  snd (calculate_rating json_loads fsqrt product_name reviews tp)
  = match reviews with
    | [] => tp
    | _ :: _ => skipn (Nat.min (List.length reviews) 20 + 1) tp
    end.
Proof.
  destruct reviews as [|review rest]; [reflexivity|].
  unfold calculate_rating.
  pose proof (analyze_each_tape (firstn 20 (review :: rest)) tp) as Ht.
  destruct (analyze_each json_loads (firstn 20 (review :: rest)) tp)
    as [analyses tp1].
  cbn [snd] in Ht. unfold _generate_summary.
  destruct (messages_create tp1) as [r tp2] eqn:E. 
  assert (Htp2 : tp2 = tl tp1) by (destruct tp1; now inversion E).
  assert (Hgoal : tp2 = skipn (Nat.min (List.length (review :: rest)) 20 + 1) tp).
  { rewrite Htp2, Ht, length_firstn, (Nat.min_comm 20), Nat.add_comm.
    generalize (Nat.min (List.length (review :: rest)) 20). intro n.
    clear. revert tp. induction n as [|n IH]; intro tp.
    - now destruct tp.
    - destruct tp; [reflexivity|]. apply IH. }
  destruct r; exact Hgoal.
Qed.

(** X8: a call of [calculate_rating] that returns a rating, as it does when
    the analysed sentiments lie in [-1,1], has called the backend once per
    analysed review and once for the summary: min(N, 20) + 1 times for
    N >= 1 reviews, and not at all for none. *)
Theorem calculate_rating_calls (product_name : string)
    (reviews : list ScrapedReview) (tp : tape) :
  snd (calculate_rating json_loads fsqrt product_name [] tp) = tp /\
  (reviews <> [] ->
   Forall (fun a => -1 <= sentiment a <= 1)
          (fst (analyze_each json_loads (firstn 20 reviews) tp)) ->
   snd (calculate_rating json_loads fsqrt product_name reviews tp)
   = skipn (Nat.min (List.length reviews) 20 + 1) tp /\
   List.length (snd (calculate_rating json_loads fsqrt product_name reviews tp))
   = (List.length tp - (Nat.min (List.length reviews) 20 + 1))%nat).
Proof.
  split; [reflexivity|]. intros Hne _.
  pose proof (calculate_rating_tape product_name reviews tp) as H.
  destruct reviews as [|review rest]; [congruence|].
  split; [exact H|]. rewrite H. apply length_skipn.
Qed.

(** X9: the scores and the phrase lists of a rating depend on the replies to
    the min(N, 20) analysis calls only: neither the reply to the summary call
    nor any later reply changes them. *)
Theorem scores_ignore_summary_reply (product_name : string)
    (reviews : list ScrapedReview) (tp tp' : tape) :
  firstn (Nat.min (List.length reviews) 20) tp
  = firstn (Nat.min (List.length reviews) 20) tp' ->
  let r := fst (calculate_rating json_loads fsqrt product_name reviews tp) in
  let r' := fst (calculate_rating json_loads fsqrt product_name reviews tp') in
  ai_rating r = ai_rating r' /\ confidence r = confidence r' /\
  sentiment_score r = sentiment_score r' /\
  reliability_score r = reliability_score r' /\
  value_score r = value_score r' /\ popularity_score r = popularity_score r' /\
  sources_analyzed r = sources_analyzed r' /\
  rating_pros r = rating_pros r' /\ rating_cons r = rating_cons r'.
Proof.
  intros H r r'. destruct reviews as [|review rest]; [repeat split|].
  destruct (calculate_rating_fields json_loads fsqrt product_name
              (review :: rest) tp ltac:(discriminate))
    as (H1 & H2 & H3 & H4 & H5 & H6 & H7 & H8 & H9).
  destruct (calculate_rating_fields json_loads fsqrt product_name
              (review :: rest) tp' ltac:(discriminate))
    as (H1' & H2' & H3' & H4' & H5' & H6' & H7' & H8' & H9').
  assert (Ha : fst (analyze_each json_loads (firstn 20 (review :: rest)) tp)
               = fst (analyze_each json_loads (firstn 20 (review :: rest)) tp')).
  { apply analyze_each_prefix. now rewrite length_firstn, (Nat.min_comm 20). }
  unfold r, r'.
  rewrite H1, H2, H3, H4, H5, H6, H7, H8, H9, H1', H2', H3', H4', H5', H6', H7', H8', H9', Ha.
  repeat split.
Qed.

End TapeFacts.

Lemma calculate_rating_calls_witness :
  List.length (snd (calculate_rating Samples.scored_loads fixed_sqrt "Headphones" Samples.crowded
                      (Samples.mixed_tape ++ repeat Raises 10)))
  = 9%nat.
Proof.
  destruct (calculate_rating_calls Samples.scored_loads fixed_sqrt "Headphones" Samples.crowded
              (Samples.mixed_tape ++ repeat Raises 10)) as [_ H].
  assert (Hs : Forall (fun a => -1 <= sentiment a <= 1)
            (fst (analyze_each Samples.scored_loads (firstn 20 Samples.crowded)
                    (Samples.mixed_tape ++ repeat Raises 10)))).
  { vm_compute. repeat constructor; discriminate. }
  exact (proj2 (H ltac:(discriminate) Hs)).
Defined.

Lemma scores_ignore_summary_reply_witness :
  ai_rating (fst (calculate_rating no_loads fixed_sqrt "Headphones"
                    [Samples.thread] [Raises; Text "Users like it."]))
  = ai_rating (fst (calculate_rating no_loads fixed_sqrt "Headphones"
                      [Samples.thread] [Raises])).
Proof.
  apply (scores_ignore_summary_reply no_loads fixed_sqrt "Headphones"
           [Samples.thread] [Raises; Text "Users like it."] [Raises]).
  reflexivity.
Defined.

(** ** More on the aggregation *)

Section MoreAggregatorFacts.

Lemma round_half_even_comp (x y : Q) : x == y -> round_half_even x = round_half_even y.
Proof.
  intro H. unfold round_half_even. rewrite (Qfloor_comp _ _ H).
  assert (Hc : Qcompare (x - inject_Z (Qfloor y)) (1 # 2)
               = Qcompare (y - inject_Z (Qfloor y)) (1 # 2))
    by now rewrite H.
  now rewrite Hc.
Qed.

Lemma round2_comp (x y : Q) : x == y -> round2 x = round2 y.
Proof.
  intro H. unfold round2. f_equal. apply round_half_even_comp. now rewrite H.
Qed.

Lemma int_of_float_comp (x y : Q) : 0 <= x -> x == y -> int_of_float x = int_of_float y.
Proof.
  intros Hx H. rewrite !int_of_float_nonneg by lra. now apply Qfloor_comp.
Qed.

Lemma weighted_sum_between (lo hi : Q) (analyses : list ReviewAnalysis) :
  Forall (fun a => lo <= sentiment a <= hi /\ 0 <= credibility_weight a) analyses ->
  lo * total_weight analyses
  <= Qsum (map (fun a => sentiment a * credibility_weight a) analyses)
  <= hi * total_weight analyses.
Proof.
  unfold total_weight. induction 1 as [|a l [Hs Hw] _ IH]; simpl.
  - rewrite Qsum_nil. split; lra.
  - rewrite !Qsum_cons.
    set (sa := sentiment a) in *. set (wa := credibility_weight a) in *.
    assert (H1 : 0 <= (sa - lo) * wa) by (apply Qmult_le_0_compat; lra).
    assert (H2 : 0 <= (hi - sa) * wa) by (apply Qmult_le_0_compat; lra).
    split; lra.
Qed.

Lemma weighted_sentiment_between_aux (lo hi : Q) :
  forall analyses,
    Forall (fun a => lo <= sentiment a <= hi /\ 0 <= credibility_weight a) analyses ->
    0 < total_weight analyses ->
    lo <= weighted_sentiment analyses <= hi.
Proof.
  intros analyses H Hpos. apply weighted_sum_between in H.
  unfold weighted_sentiment.
  assert (E : Qlt_bool 0 (total_weight analyses) = true) by now apply Qlt_bool_iff.
  rewrite E. split.
  - apply Qle_shift_div_l; [exact Hpos | lra].
  - apply Qle_shift_div_r; [exact Hpos | lra].
Qed.

(** X10: the sentiment score of a rating is a mean: when every analysed
    sentiment lies between two bounds given in hundredths within [-1,1], so
    does the score, whatever the weights. *)
Theorem sentiment_score_between (lo hi : Z)
    (json_loads : string -> option Payload) (fsqrt : Q -> Q)
    (product_name : string) (reviews : list ScrapedReview) (tp : tape) :
  (-100 <= lo)%Z -> (hi <= 100)%Z ->
  reviews <> [] ->
  Forall (fun a => lo # 100 <= sentiment a <= hi # 100)
         (fst (analyze_each json_loads (firstn 20 reviews) tp)) ->
  lo # 100
  <= sentiment_score (fst (calculate_rating json_loads fsqrt product_name reviews tp))
  <= hi # 100.
Proof.
  intros _ _ Hne Hs.
  destruct (calculate_rating_fields json_loads fsqrt product_name reviews tp Hne)
    as (_ & _ & Hsent & _).
  rewrite Hsent. apply round2_between.
  set (analyses := fst (analyze_each json_loads (firstn 20 reviews) tp)) in *.
  pose proof (batch_weight_positive json_loads reviews tp Hne) as Htw.
  fold analyses in Htw.
  apply weighted_sentiment_between_aux; [|lra].
  apply Forall_forall. intros a Hin. split.
  - revert a Hin. now apply Forall_forall.
  - apply (in_map credibility_weight) in Hin. unfold analyses in Hin.
    rewrite analyze_each_weights in Hin. apply in_map_iff in Hin.
    destruct Hin as [rv [<- _]].
    pose proof (credibility_of_bounds (source_type rv) (upvotes rv)).
    unfold credibility. lra.
Qed.

Lemma Qfloor_between (lo hi : Z) (x : Q) :
  inject_Z lo <= x -> x < inject_Z hi + 1 -> (lo <= Qfloor x <= hi)%Z.
Proof.
  intros Hlo Hhi. split.
  - apply Qfloor_resp_le in Hlo. now rewrite Qfloor_Z in Hlo.
  - pose proof (Qfloor_le x) as Hf.
    assert (Hlt : inject_Z (Qfloor x) < inject_Z (hi + 1)).
    { rewrite inject_Z_plus. change (inject_Z 1) with 1. lra. }
    rewrite <- Zlt_Qlt in Hlt. lia.
Qed.

(** X11: with sentiments in [-1,1] from the analyzer and a non-negative
    engagement total, the score of a non-empty list lies between 21 and 98:
    the clamp to [0,100] never acts and the ends of the scale are never
    reached. *)
Theorem score_effective_range (json_loads : string -> option Payload)
    (fsqrt : Q -> Q) (product_name : string)
    (reviews : list ScrapedReview) (tp : tape) :
  (forall x, 0 <= fsqrt x) ->
  reviews <> [] ->
  0 <= popularity_raw reviews ->
  Forall (fun a => -1 <= sentiment a <= 1)
         (fst (analyze_each json_loads (firstn 20 reviews) tp)) ->
  (21 <= ai_rating (fst (calculate_rating json_loads fsqrt product_name reviews tp))
   <= 98)%Z.
Proof.
  intros Hsqrt Hne Hraw Hs.
  destruct (calculate_rating_fields json_loads fsqrt product_name reviews tp Hne)
    as (Hai & _).
  rewrite Hai. clear Hai.
  set (analyses := fst (analyze_each json_loads (firstn 20 reviews) tp)) in *.
  pose proof (reliability_bounds fsqrt analyses Hsqrt) as Hr.
  apply analyzed_sentiments_weighted in Hs.
  apply weighted_sentiment_bounds in Hs. fold analyses in Hs.
  pose proof (popularity_le_1 reviews) as Hp1.
  pose proof (popularity_nonneg reviews Hne Hraw) as Hp0.
  unfold rating_of. rewrite clamp_int_of_float.
  set (s := weighted_sentiment analyses) in *.
  set (rel := reliability fsqrt analyses) in *.
  set (p := popularity reviews) in *.
  assert (Hf : (21 <= Qfloor (rating_raw s rel (value_of s) p) <= 98)%Z).
  { apply Qfloor_between; unfold rating_raw, value_of;
      change (inject_Z 21) with 21; change (inject_Z 98) with 98; lra. }
  lia.
Qed.

Lemma len_cons {A : Type} (x : A) (l : list A) :
  inject_Z (len (x :: l)) == inject_Z (len l) + 1.
Proof.
  unfold len. cbn [List.length]. rewrite Nat2Z.inj_succ, <- Z.add_1_r.
  rewrite inject_Z_plus. reflexivity.
Qed.

Lemma Qsum_constant (c : Q) (xs : list Q) :
  Forall (fun x => x == c) xs -> Qsum xs == inject_Z (len xs) * c.
Proof.
  induction 1 as [|x l Hx _ IH].
  - rewrite Qsum_nil. change (inject_Z (len (@nil Q))) with 0. ring.
  - rewrite Qsum_cons, len_cons, IH, Hx. ring.
Qed.

Lemma mean_constant (c : Q) (xs : list Q) :
  xs <> [] -> Forall (fun x => x == c) xs -> mean xs == c.
Proof.
  intros Hne H. unfold mean. rewrite (Qsum_constant c xs H).
  pose proof (len_pos xs Hne). field. lra.
Qed.

Lemma variance_constant (c : Q) (xs : list Q) :
  xs <> [] -> Forall (fun x => x == c) xs -> variance xs == 0.
Proof.
  intros Hne H. unfold variance.
  pose proof (mean_constant c xs Hne H) as Hm.
  assert (Hz : Qsum (map (fun x => (x - mean xs) * (x - mean xs)) xs) == 0).
  { generalize dependent (mean xs). intros m Hm. clear Hne.
    induction H as [|x l Hx _ IH]; simpl; [reflexivity|].
    rewrite Qsum_cons, IH, Hx, Hm. ring. }
  rewrite Hz. unfold Qdiv. apply Qmult_0_l.
Qed.

(** X12: analyses that agree are fully reliable: when at least two analyses
    carry the same sentiment, the sample variance is 0 and (the root of 0
    being 0) the reliability score is 1, whatever the weights. *)
Theorem unanimous_analyses (fsqrt : Q -> Q) (c : Q)
    (analyses : list ReviewAnalysis) :
  (forall x, x == 0 -> fsqrt x == 0) ->
  (2 <= List.length analyses)%nat ->
  Forall (fun a => sentiment a == c) analyses ->
  variance (map sentiment analyses) == 0 /\
  reliability fsqrt analyses == 1.
Proof.
  intros Hsqrt Hlen H.
  assert (Hne : analyses <> []) by (destruct analyses; [simpl in Hlen; lia | discriminate]).
  assert (Hvar : variance (map sentiment analyses) == 0).
  { apply (variance_constant c).
    - intro E. apply map_eq_nil in E. contradiction.
    - now apply Forall_map. }
  split; [exact Hvar|].
  unfold reliability, stdev. rewrite len_lt_1, length_map.
  destruct (Nat.ltb_spec 1 (List.length analyses)); [|lia].
  specialize (Hsqrt _ Hvar). rewrite Q.max_r; lra.
Qed.

Lemma source_confidence_bounds {A : Type} (l : list A) :
  l <> [] -> 1 # 15 <= Qmin 1 (inject_Z (len l) / 15).
Proof.
  intro Hne. apply Q.min_glb; [lra|].
  apply Qle_shift_div_l; [lra|].
  assert (H : 1 <= inject_Z (len l)).
  { unfold len. rewrite <- (Zle_Qle 1). destruct l; [congruence | simpl; lia]. }
  lra.
Qed.

Lemma reliability_nonneg (fsqrt : Q -> Q) (analyses : list ReviewAnalysis) :
  0 <= reliability fsqrt analyses.
Proof.
  unfold reliability. destruct (1 <? len (map sentiment analyses))%Z; [|lra].
  apply Q.le_max_l.
Qed.

(** X13: a non-empty list never gets confidence 0: its confidence is at
    least 0.04; for a given reliability the confidence does not decrease
    when reviews are added, and from 15 reviews on it is 0.6 plus 0.4 times
    the reliability. *)
Theorem confidence_grows_with_sources :
  (forall json_loads fsqrt product_name reviews tp, reviews <> [] ->
      4 # 100 <= confidence
                   (fst (calculate_rating json_loads fsqrt product_name reviews tp))) /\
  (forall (reviews reviews' : list ScrapedReview) rel,
      (List.length reviews <= List.length reviews')%nat ->
      confidence_of reviews rel <= confidence_of reviews' rel) /\
  (forall (reviews : list ScrapedReview) rel,
      (15 <= List.length reviews)%nat ->
      confidence_of reviews rel == (6 # 10) + rel * (4 # 10)).
Proof.
  split; [|split].
  - intros json_loads fsqrt product_name reviews tp Hne.
    destruct (calculate_rating_fields json_loads fsqrt product_name reviews tp Hne)
      as (_ & Hc & _).
    rewrite Hc. apply round2_ge. unfold confidence_of.
    pose proof (source_confidence_bounds reviews Hne).
    pose proof (reliability_nonneg fsqrt
                  (fst (analyze_each json_loads (firstn 20 reviews) tp))).
    lra.
  - intros reviews reviews' rel Hlen. unfold confidence_of.
    assert (H : Qmin 1 (inject_Z (len reviews) / 15)
                <= Qmin 1 (inject_Z (len reviews') / 15)).
    { apply Q.min_le_compat_l. unfold Qdiv.
      apply Qmult_le_compat_r; [|unfold Qle; simpl; lia].
      unfold len. rewrite <- Zle_Qle. lia. }
    lra.
  - intros reviews rel Hlen. unfold confidence_of.
    rewrite Q.min_l; [ring|].
    apply Qle_shift_div_l; [lra|].
    assert (H : 15 <= inject_Z (len reviews))
      by (unfold len; rewrite <- (Zle_Qle 15); lia).
    lra.
Qed.

Lemma Zsum_perm (l l' : list Z) : Permutation l l' -> Zsum l = Zsum l'.
Proof.
  induction 1 as [|x l l' _ IH|x y l|l l' l'' _ IH1 _ IH2].
  - reflexivity.
  - rewrite !Zsum_cons. lia.
  - rewrite !Zsum_cons. lia.
  - congruence.
Qed.

(** X14: the popularity score, the number of sources and the source part of
    the confidence do not depend on the order of the reviews. *)
Theorem popularity_ignores_order (reviews reviews' : list ScrapedReview) :
  Permutation reviews reviews' ->
  popularity reviews = popularity reviews' /\
  len reviews = len reviews' /\
  forall rel, confidence_of reviews rel = confidence_of reviews' rel.
Proof.
  intro H.
  assert (Hlen : len reviews = len reviews')
    by (unfold len; now rewrite (Permutation_length H)).
  assert (Hup : total_upvotes reviews = total_upvotes reviews')
    by (apply Zsum_perm; now apply Permutation_map).
  assert (Hco : total_comments reviews = total_comments reviews')
    by (apply Zsum_perm; now apply Permutation_map).
  split; [|split; [exact Hlen|]].
  - unfold popularity, popularity_raw. now rewrite Hlen, Hup, Hco.
  - intro rel. unfold confidence_of. now rewrite Hlen.
Qed.

End MoreAggregatorFacts.

(** ** A backend that is down *)

Section OutageFacts.

Variable json_loads : string -> option Payload.
Variable fsqrt : Q -> Q.

Lemma analyze_each_outage (reviews : list ScrapedReview) (tp : tape) :
  Forall (fun r => r = Raises) tp ->
  fst (analyze_each json_loads reviews tp)
  = map (fun r => neutral_analysis (credibility r)) reviews /\
  Forall (fun r => r = Raises) (snd (analyze_each json_loads reviews tp)).
Proof.
  revert tp. induction reviews as [|review rest IH]; intros tp Htp; [now split|].
  cbn [analyze_each].
  assert (Ha : analyze_review json_loads review tp
               = (neutral_analysis (credibility review), tl tp)).
  { unfold analyze_review. destruct Htp as [|r tp' -> _]; reflexivity. }
  rewrite Ha.
  assert (Htl : Forall (fun r => r = Raises) (tl tp))
    by (destruct Htp; [constructor | assumption]).
  destruct (IH (tl tp) Htl) as [Hf Hs].
  destruct (analyze_each json_loads rest (tl tp)) as [l tp2].
  cbn [fst snd] in *. split; [now rewrite Hf | exact Hs].
Qed.

Lemma all_pros_neutral (reviews : list ScrapedReview) :
  all_pros (map (fun r => neutral_analysis (credibility r)) reviews) = [] /\
  all_cons (map (fun r => neutral_analysis (credibility r)) reviews) = [].
Proof.
  unfold all_pros, all_cons. generalize (@nil (string * Z)).
  induction reviews as [|r l IH]; intro d; [now split|]. simpl. apply IH.
Qed.

Lemma weighted_sentiment_zero (analyses : list ReviewAnalysis) :
  Forall (fun a => sentiment a == 0) analyses -> weighted_sentiment analyses == 0.
Proof.
  intro H. unfold weighted_sentiment.
  destruct (Qlt_bool 0 (total_weight analyses)); [|reflexivity].
  assert (Hz : Qsum (map (fun a => sentiment a * credibility_weight a) analyses) == 0).
  { induction H as [|a l Ha _ IH]; simpl; [reflexivity|].
    rewrite Qsum_cons, IH, Ha. ring. }
  rewrite Hz. unfold Qdiv. apply Qmult_0_l.
Qed.

Lemma sentiment_desc_zero (x : Q) : x == 0 -> sentiment_desc x = "mixed"%string.
Proof.
  intro H. unfold sentiment_desc.
  destruct (Qlt_bool (5 # 10) x) eqn:E1; [apply Qlt_bool_iff in E1; lra|].
  destruct (Qlt_bool (2 # 10) x) eqn:E2; [apply Qlt_bool_iff in E2; lra|].
  destruct (Qlt_bool (- (2 # 10)) x) eqn:E3; [reflexivity|].
  assert (- (2 # 10) < x) by lra. apply Qlt_bool_iff in H0. congruence.
Qed.

Lemma calculate_rating_summary (product_name : string)
    (reviews : list ScrapedReview) (tp : tape) :
  reviews <> [] ->
  let batch := analyze_each json_loads (firstn 20 reviews) tp in
  summary (fst (calculate_rating json_loads fsqrt product_name reviews tp))
  = fst (_generate_summary product_name (weighted_sentiment (fst batch))
           (map fst (top5 (all_pros (fst batch))))
           (map fst (top5 (all_cons (fst batch))))
           (len reviews) (snd batch)).
Proof.
  intro Hne. destruct reviews as [|review rest]; [congruence|].
  unfold calculate_rating. cbv zeta.
  destruct (analyze_each json_loads (firstn 20 (review :: rest)) tp)
    as [analyses tp1].
  cbn [fst snd]. now destruct (_generate_summary _ _ _ _ _ tp1).
Qed.

(** X15: when every backend call fails, a non-empty list is still rated: the
    sentiment score is 0, the value score 0.5, no pros or cons are listed and
    the summary is the template sentence with the band "mixed"; with two or
    more reviews the reliability score is 1 (the root of 0 being 0), so that
    15 reviews or more get confidence 1 although nothing was analysed, and
    the score lies between 62 and 67 when the engagement total is not
    negative. *)
Theorem backend_outage (product_name : string)
    (reviews : list ScrapedReview) (tp : tape) :
  (forall x, x == 0 -> fsqrt x == 0) ->
  reviews <> [] ->
  Forall (fun r => r = Raises) tp ->
  let r := fst (calculate_rating json_loads fsqrt product_name reviews tp) in
  sentiment_score r == 0 /\ value_score r == 1 # 2 /\
  rating_pros r = [] /\ rating_cons r = [] /\
  summary r = fallback_summary product_name "mixed" (len reviews) /\
  ((2 <= List.length reviews)%nat ->
   reliability_score r == 1 /\
   ((15 <= List.length reviews)%nat -> confidence r == 1) /\
   (0 <= popularity_raw reviews -> (62 <= ai_rating r <= 67)%Z)).
Proof.
  intros Hsqrt Hne Htp r.
  destruct (calculate_rating_fields json_loads fsqrt product_name reviews tp Hne)
    as (Hai & Hconf & Hsent & Hrel & Hval & _ & _ & Hpros & Hcons).
  pose proof (calculate_rating_summary product_name reviews tp Hne) as Hsum.
  cbv zeta in Hsum. fold r in Hai, Hconf, Hsent, Hrel, Hval, Hpros, Hcons, Hsum.
  destruct (analyze_each_outage (firstn 20 reviews) tp Htp) as [Hbatch Hrest].
  set (neutral := map (fun x => neutral_analysis (credibility x)) (firstn 20 reviews)) in *.
  rewrite Hbatch in *.
  destruct (all_pros_neutral (firstn 20 reviews)) as [Hp Hc].
  fold neutral in Hp, Hc.
  assert (Hall : Forall (fun a => sentiment a == 0) neutral).
  { unfold neutral. apply Forall_map, Forall_forall. now intros. }
  pose proof (weighted_sentiment_zero neutral Hall) as Hs.
  assert (Hv : value_of (weighted_sentiment neutral) == 1 # 2)
    by (unfold value_of; rewrite Hs; reflexivity).
  split; [rewrite Hsent, (round2_comp _ 0 Hs); reflexivity|].
  split; [rewrite Hval, (round2_comp _ (1 # 2) Hv); reflexivity|].
  split; [now rewrite Hpros, Hp|]. split; [now rewrite Hcons, Hc|].
  split.
  { rewrite Hsum. unfold _generate_summary.
    rewrite (sentiment_desc_zero _ Hs).
    destruct Hrest as [|x tp2 -> _]; reflexivity. }
  intro Hlen.
  assert (Hr1 : reliability fsqrt neutral == 1).
  { unfold reliability, stdev. rewrite len_lt_1, length_map.
    unfold neutral at 1. rewrite length_map, length_firstn.
    destruct (Nat.ltb_spec 1 (Nat.min 20 (List.length reviews))); [|lia].
    assert (Hvar : variance (map sentiment neutral) == 0).
    { apply (variance_constant 0).
      - unfold neutral. rewrite map_map. intro E. apply map_eq_nil in E.
        revert E. now apply firstn_nonempty.
      - now apply Forall_map. }
    specialize (Hsqrt _ Hvar). rewrite Q.max_r; lra. }
  split; [rewrite Hrel, (round2_comp _ 1 Hr1); reflexivity|]. split.
  - intro H15. rewrite Hconf.
    assert (Hc1 : confidence_of reviews (reliability fsqrt neutral) == 1).
    { unfold confidence_of. rewrite Q.min_l, Hr1; [reflexivity|].
      apply Qle_shift_div_l; [lra|].
      assert (15 <= inject_Z (len reviews))
        by (unfold len; rewrite <- (Zle_Qle 15); lia).
      lra. }
    rewrite (round2_comp _ 1 Hc1). reflexivity.
  - intro Hraw. rewrite Hai. unfold rating_of. rewrite clamp_int_of_float.
    pose proof (popularity_le_1 reviews) as Hp1.
    pose proof (popularity_nonneg reviews Hne Hraw) as Hp0.
    assert (Hf : (62 <= Qfloor (rating_raw (weighted_sentiment neutral)
                                  (reliability fsqrt neutral)
                                  (value_of (weighted_sentiment neutral))
                                  (popularity reviews)) <= 67)%Z).
    { apply Qfloor_between; unfold rating_raw; rewrite Hv, Hs, Hr1;
        change (inject_Z 62) with 62; change (inject_Z 67) with 67; lra. }
    lia.
Qed.

End OutageFacts.

Lemma fixed_sqrt_0 (x : Q) : x == 0 -> fixed_sqrt x == 0.
Proof.
  intro H. unfold fixed_sqrt.
  assert (Hf : Qfloor (x * inject_Z (2 ^ 52)) = 0%Z)
    by (rewrite (Qfloor_comp _ 0); [reflexivity | rewrite H; ring]).
  rewrite Hf. reflexivity.
Qed.

(** ** More on the phrase counts *)

Section MorePhraseFacts.

Lemma first_seen_NoDup (l : list string) : NoDup (first_seen l).
Proof.
  induction l as [|x l IH]; simpl; constructor.
  - rewrite filter_In, negb_true_iff. intros [_ H].
    now rewrite String.eqb_refl in H.
  - now apply NoDup_filter.
Qed.

Lemma NoDup_firstn {A : Type} (n : nat) (l : list A) : NoDup l -> NoDup (firstn n l).
Proof.
  intro H. rewrite <- (firstn_skipn n l) in H. now apply NoDup_app_remove_r in H.
Qed.

Lemma rstrip_idem (s : string) : rstrip (rstrip s) = rstrip s.
Proof.
  induction s as [|c s IH]; [reflexivity|]. simpl.
  destruct (rstrip s) as [|c' r] eqn:E.
  - destruct (is_space c) eqn:Hc; [reflexivity|]. simpl. now rewrite Hc.
  - cbn [rstrip]. cbn [rstrip] in IH. rewrite IH. reflexivity.
Qed.

Lemma lstrip_rstrip_lstrip (s : string) : lstrip (rstrip (lstrip s)) = rstrip (lstrip s).
Proof.
  induction s as [|c s IH]; [reflexivity|]. cbn [lstrip].
  destruct (is_space c) eqn:Hc; [exact IH|]. cbn [rstrip].
  destruct (rstrip s); [rewrite Hc|]; cbn [lstrip]; now rewrite Hc.
Qed.

Lemma strip_idem (s : string) : strip (strip s) = strip s.
Proof. unfold strip. now rewrite lstrip_rstrip_lstrip, rstrip_idem. Qed.

Lemma phrase_key_idem (p : string) : phrase_key (phrase_key p) = phrase_key p.
Proof.
  unfold phrase_key at 1. rewrite lower_phrase_key. unfold phrase_key.
  apply strip_idem.
Qed.

Lemma lower_upper_char (c : ascii) : lower_char (upper_char c) = lower_char c.
Proof. destruct c as [[] [] [] [] [] [] [] []]; reflexivity. Qed.

Lemma lower_capitalize (s : string) : lower (capitalize s) = lower s.
Proof.
  destruct s as [|c s]; [reflexivity|]. simpl.
  now rewrite lower_upper_char, lower_idem.
Qed.

Lemma dict_get_NoDup {V : Type} (d : list (string * V)) (k : string) (v default : V) :
  NoDup (map fst d) -> In (k, v) d -> dict_get d k default = v.
Proof.
  induction d as [|[k0 v0] d IH]; simpl; [tauto|].
  intros Hnd [Heq|Hin].
  - injection Heq as -> ->. now rewrite String.eqb_refl.
  - inversion Hnd as [|? ? Hnotin Hnd']; subst.
    destruct (String.eqb_spec k0 k) as [->|_].
    + exfalso. apply Hnotin. apply (in_map fst) in Hin. exact Hin.
    + now apply IH.
Qed.

Lemma sum_dict_set (d : list (string * Z)) (k : string) :
  Zsum (map snd (dict_set d k (dict_get d k 0 + 1)%Z)) = (Zsum (map snd d) + 1)%Z.
Proof.
  induction d as [|[k0 v0] d IH]; [reflexivity|]. simpl.
  destruct (String.eqb k0 k); simpl; rewrite !Zsum_cons; [lia|].
  rewrite IH. lia.
Qed.

Lemma sum_count_phrases (phrases : list string) (d : list (string * Z)) :
  Zsum (map snd (count_phrases d phrases))
  = (Zsum (map snd d)
     + len (filter (fun p => nonempty (phrase_key p)) phrases))%Z.
Proof.
  revert d. unfold len. induction phrases as [|p ps IH]; intro d;
    [simpl; lia|].
  unfold count_phrases in *. cbn [fold_left filter]. rewrite IH.
  unfold count_phrase. fold (phrase_key p).
  destruct (nonempty (phrase_key p)); [|lia].
  rewrite sum_dict_set. cbn [List.length]. lia.
Qed.

Lemma count_phrases_table (phrases : list string) :
  let d := count_phrases [] phrases in
  NoDup (map fst d) /\
  (forall k v, In (k, v) d ->
     nonempty k = true /\ phrase_key k = k /\
     v = occurrences k phrases /\ (1 <= v)%Z) /\
  Zsum (map snd d) = len (filter (fun p => nonempty (phrase_key p)) phrases).
Proof.
  intro d.
  assert (Hkeys : map fst d = first_seen (filter nonempty (map phrase_key phrases)))
    by apply count_phrases_keys.
  assert (Hnd : NoDup (map fst d)) by (rewrite Hkeys; apply first_seen_NoDup).
  split; [exact Hnd|]. split.
  - intros k v Hin.
    assert (Hk : In k (map fst d)) by (apply (in_map fst) in Hin; exact Hin).
    rewrite Hkeys, first_seen_In, filter_In, in_map_iff in Hk.
    destruct Hk as [(p & <- & Hp) Hne].
    assert (Hv : v = occurrences (phrase_key p) phrases).
    { rewrite <- (dict_get_NoDup d (phrase_key p) v 0%Z Hnd Hin).
      unfold d. now rewrite count_phrases_get. }
    split; [exact Hne|]. split; [apply phrase_key_idem|]. split; [exact Hv|].
    rewrite Hv. unfold occurrences, len.
    assert (Hin' : In p (filter (fun q => String.eqb (phrase_key q) (phrase_key p)) phrases))
      by (apply filter_In; split; [exact Hp | apply String.eqb_refl]).
    destruct (filter _ phrases); [contradiction | simpl; lia].
  - unfold d. now rewrite sum_count_phrases.
Qed.

End MorePhraseFacts.

(** X16: each of the two frequency tables of a batch has one entry per key;
    every key is non-empty and already normalised; every count is the number
    of phrases with that key and at least 1; and the counts add up to the
    number of phrases that are not blank. *)
Theorem frequency_table_invariants (analyses : list ReviewAnalysis) :
  (let d := all_pros analyses in
   let phrases := flat_map pros analyses in
   NoDup (map fst d) /\
   (forall k v, In (k, v) d ->
      nonempty k = true /\ phrase_key k = k /\
      v = occurrences k phrases /\ (1 <= v)%Z) /\
   Zsum (map snd d) = len (filter (fun p => nonempty (phrase_key p)) phrases)) /\
  (let d := all_cons analyses in
   let phrases := flat_map cons analyses in
   NoDup (map fst d) /\
   (forall k v, In (k, v) d ->
      nonempty k = true /\ phrase_key k = k /\
      v = occurrences k phrases /\ (1 <= v)%Z) /\
   Zsum (map snd d) = len (filter (fun p => nonempty (phrase_key p)) phrases)).
Proof.
  split; intros d phrases; unfold d, all_pros, all_cons;
    rewrite fold_count_phrases; apply count_phrases_table.
Qed.

Lemma frequency_table_invariants_witness :
  nonempty "comfy" = true /\ phrase_key "comfy" = "comfy"%string /\
  2%Z = occurrences "comfy" (flat_map pros Samples.batch) /\ (1 <= 2)%Z.
Proof.
  apply (proj1 (proj2 (proj1 (frequency_table_invariants Samples.batch)))).
  vm_compute. right. left. reflexivity.
Defined.

Lemma In_firstn_aux {A : Type} (n : nat) (l : list A) (x : A) :
  In x (firstn n l) -> In x l.
Proof.
  intro H. rewrite <- (firstn_skipn n l). apply in_or_app. now left.
Qed.

Lemma sorted_split_le (l1 l2 : list (string * Z)) :
  StronglySorted count_ge (l1 ++ l2) ->
  forall x y, In x l1 -> In y l2 -> (snd y <= snd x)%Z.
Proof.
  induction l1 as [|a l1 IH]; simpl; [tauto|].
  intros Hs x y [->|Hx] Hy.
  - inversion Hs as [|? ? _ Hall]; subst. rewrite Forall_forall in Hall.
    apply Hall. apply in_or_app. now right.
  - inversion Hs; subst. now apply IH.
Qed.

(** X17: the five entries that are listed are entries of the table, as many
    as the table has up to five, and no entry left out has a larger count
    than a listed one. *)
Theorem top5_dominates (d : list (string * Z)) :
  (forall x, In x (top5 d) -> In x d) /\
  List.length (top5 d) = Nat.min 5 (List.length d) /\
  (forall x y, In x (top5 d) -> In y d -> ~ In y (top5 d) ->
               (snd y <= snd x)%Z).
Proof.
  unfold top5. pose proof (sorted_desc_perm d) as Hperm.
  split; [|split].
  - intros x Hx. apply (Permutation_in _ Hperm). eapply In_firstn_aux. exact Hx.
  - now rewrite length_firstn, (Permutation_length Hperm).
  - intros x y Hx Hy Hny.
    apply (Permutation_in _ (Permutation_sym Hperm)) in Hy.
    rewrite <- (firstn_skipn 5 (sorted_desc d)) in Hy.
    apply in_app_or in Hy. destruct Hy as [Hy|Hy]; [contradiction|].
    pose proof (sorted_desc_sorted d) as Hs.
    rewrite <- (firstn_skipn 5 (sorted_desc d)) in Hs.
    exact (sorted_split_le _ _ Hs x y Hx Hy).
Qed.

Lemma top5_dominates_witness :
  In ("light", 2%Z)%string MoreSamples.six_buckets /\
  (snd ("heavy", 1%Z)%string <= snd ("light", 2%Z)%string)%Z.
Proof.
  destruct (top5_dominates MoreSamples.six_buckets) as (Hin & _ & Hdom).
  split.
  - apply Hin. vm_compute. tauto.
  - apply Hdom.
    + vm_compute. tauto.
    + vm_compute. tauto.
    + vm_compute. intros [H|[H|[H|[H|[H|[]]]]]]; discriminate H.
Defined.

Lemma capitalize_nonempty (s : string) : nonempty s = true -> nonempty (capitalize s) = true.
Proof. destruct s; [discriminate | reflexivity]. Qed.

Lemma displayed_distinct (d : list (string * Z)) :
  NoDup (map fst d) ->
  (forall k, In k (map fst d) -> nonempty k = true /\ phrase_key k = k) ->
  NoDup (map (fun p => capitalize (fst p)) (top5 d)) /\
  Forall (fun s => nonempty s = true) (map (fun p => capitalize (fst p)) (top5 d)).
Proof.
  intros Hnd Hkeys. unfold top5.
  assert (Hperm : Permutation (map fst (sorted_desc d)) (map fst d))
    by (apply Permutation_map, sorted_desc_perm).
  assert (Hnd5 : NoDup (map fst (firstn 5 (sorted_desc d)))).
  { rewrite <- firstn_map. apply NoDup_firstn.
    now apply (Permutation_NoDup (Permutation_sym Hperm)). }
  assert (Hk5 : forall k, In k (map fst (firstn 5 (sorted_desc d))) ->
                          nonempty k = true /\ phrase_key k = k).
  { intros k Hk. apply Hkeys. apply (Permutation_in _ Hperm).
    rewrite <- firstn_map in Hk. now apply In_firstn_aux in Hk. }
  rewrite <- (map_map fst capitalize). split.
  - apply NoDup_map_NoDup_ForallPairs; [|exact Hnd5].
    intros k1 k2 H1 H2 Heq.
    destruct (Hk5 k1 H1) as [_ E1]. destruct (Hk5 k2 H2) as [_ E2].
    apply (f_equal lower) in Heq. rewrite !lower_capitalize in Heq.
    rewrite <- E1, <- E2, <- (lower_phrase_key k1), <- (lower_phrase_key k2).
    now rewrite E1, E2.
  - apply Forall_map, Forall_forall. intros k Hk.
    apply capitalize_nonempty. now apply Hk5.
Qed.

(** X18: when the analysed phrases are ASCII text, the pros and the cons a
    rating lists are non-empty and pairwise different. *)
Theorem displayed_phrases_distinct (json_loads : string -> option Payload)
    (fsqrt : Q -> Q) (product_name : string)
    (reviews : list ScrapedReview) (tp : tape) :
  Forall (fun a => forallb ascii_text (pros a) = true /\
                   forallb ascii_text (cons a) = true)
         (fst (analyze_each json_loads (firstn 20 reviews) tp)) ->
  let r := fst (calculate_rating json_loads fsqrt product_name reviews tp) in
  NoDup (rating_pros r) /\ NoDup (rating_cons r) /\
  Forall (fun s => nonempty s = true) (rating_pros r) /\
  Forall (fun s => nonempty s = true) (rating_cons r).
Proof.
  intros _ r. destruct reviews as [|review rest].
  - repeat split; constructor.
  - destruct (calculate_rating_fields json_loads fsqrt product_name
                (review :: rest) tp ltac:(discriminate))
      as (_ & _ & _ & _ & _ & _ & _ & Hp & Hc).
    fold r in Hp, Hc. rewrite Hp, Hc.
    set (analyses := fst (analyze_each json_loads (firstn 20 (review :: rest)) tp)).
    assert (Hpros : NoDup (map fst (all_pros analyses)) /\
                    forall k, In k (map fst (all_pros analyses)) ->
                              nonempty k = true /\ phrase_key k = k).
    { unfold all_pros. rewrite fold_count_phrases.
      destruct (count_phrases_table (flat_map pros analyses)) as (Hnd & He & _).
      split; [exact Hnd|]. intros k Hk. apply in_map_iff in Hk.
      destruct Hk as [[k' v] [<- Hin]]. destruct (He k' v Hin) as (H1 & H2 & _).
      now split. }
    assert (Hcons : NoDup (map fst (all_cons analyses)) /\
                    forall k, In k (map fst (all_cons analyses)) ->
                              nonempty k = true /\ phrase_key k = k).
    { unfold all_cons. rewrite fold_count_phrases.
      destruct (count_phrases_table (flat_map cons analyses)) as (Hnd & He & _).
      split; [exact Hnd|]. intros k Hk. apply in_map_iff in Hk.
      destruct Hk as [[k' v] [<- Hin]]. destruct (He k' v Hin) as (H1 & H2 & _).
      now split. }
    destruct (displayed_distinct _ (proj1 Hpros) (proj2 Hpros)) as [Hp1 Hp2].
    destruct (displayed_distinct _ (proj1 Hcons) (proj2 Hcons)) as [Hc1 Hc2].
    repeat split; assumption.
Qed.

(** ** The worker *)

Section StoreFacts.

Lemma url_known_In (rows : list ReviewRow) (url : string) :
  url_known rows url = true <-> In url (map row_source_url rows).
Proof.
  unfold url_known. rewrite existsb_exists, in_map_iff. split.
  - intros (row & Hin & Heq). apply String.eqb_eq in Heq. now exists row.
  - intros (row & Heq & Hin). exists row. split; [exact Hin|].
    now apply String.eqb_eq.
Qed.

Lemma url_known_app (rows more : list ReviewRow) (url : string) :
  url_known rows url = true -> url_known (rows ++ more) url = true.
Proof. unfold url_known. rewrite existsb_app. now intros ->. Qed.

Lemma save_review_grows (product_id : string) (rows : list ReviewRow)
    (review : ScrapedReview) :
  exists added, save_review product_id rows review = rows ++ added /\
    Forall (fun row => row = row_of product_id review) added.
Proof.
  unfold save_review. destruct (url_known rows (source_url review)).
  - exists []. now rewrite app_nil_r.
  - exists [row_of product_id review]. split; [reflexivity | now constructor].
Qed.

Lemma save_review_known (product_id : string) (rows : list ReviewRow)
    (review : ScrapedReview) :
  url_known (save_review product_id rows review) (source_url review) = true.
Proof.
  unfold save_review. destruct (url_known rows (source_url review)) eqn:E;
    [exact E|].
  unfold url_known. rewrite existsb_app. simpl.
  now rewrite String.eqb_refl, orb_true_r.
Qed.

Lemma save_review_NoDup (product_id : string) (rows : list ReviewRow)
    (review : ScrapedReview) :
  NoDup (map row_source_url rows) ->
  NoDup (map row_source_url (save_review product_id rows review)).
Proof.
  intro H. unfold save_review.
  destruct (url_known rows (source_url review)) eqn:E; [exact H|].
  rewrite map_app. simpl. apply NoDup_app; [exact H | repeat constructor; tauto |].
  intros u Hu [<-|[]]. apply url_known_In in Hu. simpl in Hu. congruence.
Qed.

Lemma save_reviews_grows (product_id : string) (reviews : list ScrapedReview)
    (rows : list ReviewRow) :
  exists added, save_reviews product_id rows reviews = rows ++ added /\
    Forall (fun row => exists r, In r reviews /\ row = row_of product_id r) added.
Proof.
  revert rows. induction reviews as [|r rs IH]; intro rows.
  - exists []. now rewrite app_nil_r.
  - unfold save_reviews in *. cbn [fold_left].
    destruct (save_review_grows product_id rows r) as (a1 & -> & H1).
    destruct (IH (rows ++ a1)) as (a2 & -> & H2).
    exists (a1 ++ a2). rewrite app_assoc. split; [reflexivity|].
    apply Forall_app. split.
    + eapply Forall_impl; [|exact H1]. intros row ->. exists r. split; [now left | reflexivity].
    + eapply Forall_impl; [|exact H2]. intros row (r' & Hin & ->).
      exists r'. split; [now right | reflexivity].
Qed.

Lemma save_reviews_keeps_known (product_id : string) (reviews : list ScrapedReview)
    (rows : list ReviewRow) (url : string) :
  url_known rows url = true ->
  url_known (save_reviews product_id rows reviews) url = true.
Proof.
  intro H. destruct (save_reviews_grows product_id reviews rows) as (added & -> & _).
  now apply url_known_app.
Qed.

Lemma save_reviews_known (product_id : string) (reviews : list ScrapedReview)
    (rows : list ReviewRow) (r : ScrapedReview) :
  In r reviews ->
  url_known (save_reviews product_id rows reviews) (source_url r) = true.
Proof.
  revert rows. induction reviews as [|r0 rs IH]; intros rows Hin; [contradiction|].
  unfold save_reviews in *. cbn [fold_left]. destruct Hin as [->|Hin].
  - apply (save_reviews_keeps_known product_id rs). apply save_review_known.
  - now apply IH.
Qed.

Lemma save_reviews_NoDup (product_id : string) (reviews : list ScrapedReview)
    (rows : list ReviewRow) :
  NoDup (map row_source_url rows) ->
  NoDup (map row_source_url (save_reviews product_id rows reviews)).
Proof.
  revert rows. induction reviews as [|r rs IH]; intros rows H; [exact H|].
  unfold save_reviews in *. cbn [fold_left]. apply IH. now apply save_review_NoDup.
Qed.

Lemma save_reviews_all_known (product_id : string) (reviews : list ScrapedReview)
    (rows : list ReviewRow) :
  (forall r, In r reviews -> url_known rows (source_url r) = true) ->
  save_reviews product_id rows reviews = rows.
Proof.
  induction reviews as [|r rs IH]; intro H; [reflexivity|].
  unfold save_reviews in *. cbn [fold_left]. unfold save_review at 2.
  rewrite (H r (or_introl eq_refl)). apply IH. intros r' Hin. apply H. now right.
Qed.

(** X19: saving a batch of reviews leaves the stored rows as they are and
    appends rows of the batch only; afterwards the URL of every review of the
    batch is stored; URLs that were pairwise different stay so; and saving
    the same batch again, for whatever product, changes nothing. *)
Theorem save_reviews_idempotent (product_id product_id' : string)
    (rows : list ReviewRow) (reviews : list ScrapedReview) :
  let rows' := save_reviews product_id rows reviews in
  (exists added, rows' = rows ++ added /\
     Forall (fun row => exists r, In r reviews /\ row = row_of product_id r) added) /\
  (forall r, In r reviews -> In (source_url r) (map row_source_url rows')) /\
  (NoDup (map row_source_url rows) -> NoDup (map row_source_url rows')) /\
  save_reviews product_id' rows' reviews = rows'.
Proof.
  intro rows'. split; [apply save_reviews_grows|]. split; [|split].
  - intros r Hin. apply url_known_In. now apply save_reviews_known.
  - apply save_reviews_NoDup.
  - apply save_reviews_all_known. intros r Hin. now apply save_reviews_known.
Qed.

End StoreFacts.

Section PipelineFacts.

Variable json_loads : string -> option Payload.
Variable fsqrt : Q -> Q.
Variable search : Scraper -> option (list ScrapedReview).

Lemma collect_flat_map (scrapers : list Scraper) :
  collect search scrapers = flat_map (fun s => or_default (search s) []) scrapers.
Proof.
  unfold collect.
  assert (H : forall acc,
             fold_left (fun all_reviews scraper =>
                          match search scraper with
                          | Some reviews => all_reviews ++ reviews
                          | None => all_reviews
                          end) scrapers acc
             = acc ++ flat_map (fun s => or_default (search s) []) scrapers).
  { induction scrapers as [|s l IH]; intro acc; simpl; [now rewrite app_nil_r|].
    rewrite IH. destruct (search s); simpl; [now rewrite app_assoc | reflexivity]. }
  apply H.
Qed.

Lemma collect_nil (scrapers : list Scraper) :
  collect search scrapers = [] <->
  forall s, In s scrapers -> search s = None \/ search s = Some [].
Proof.
  rewrite collect_flat_map. induction scrapers as [|s l IH]; simpl.
  - split; [intros _ ? [] | reflexivity].
  - split.
    + intros H. apply app_eq_nil in H. destruct H as [Hs Hl].
      intros s' [<-|Hin]; [|now apply IH].
      destruct (search s) as [rs|]; [right; simpl in Hs; now subst | now left].
    + intro H. rewrite (proj2 IH) by (intros; apply H; now right).
      destruct (H s (or_introl eq_refl)) as [->| ->]; reflexivity.
Qed.

Lemma dict_set_get {V : Type} (d : list (string * V)) (k : string) (v default : V) :
  dict_get (dict_set d k v) k default = v.
Proof. rewrite dict_get_set. now rewrite String.eqb_refl. Qed.

Lemma dict_set_other {V : Type} (d : list (string * V)) (k k' : string) (v default : V) :
  k' <> k -> dict_get (dict_set d k v) k' default = dict_get d k' default.
Proof.
  intro H. rewrite dict_get_set.
  destruct (String.eqb_spec k k'); [congruence | reflexivity].
Qed.

Lemma dict_set_NoDup {V : Type} (d : list (string * V)) (k : string) (v : V) :
  NoDup (map fst d) -> NoDup (map fst (dict_set d k v)).
Proof.
  intro H. rewrite dict_set_keys. destruct (mem k (map fst d)) eqn:E; [exact H|].
  apply NoDup_app; [exact H | repeat constructor; tauto |].
  intros k' Hk' [<-|[]]. apply mem_In in Hk'. congruence.
Qed.

Lemma dict_set_keys_again {V : Type} (d : list (string * V)) (k : string) (v v' : V) :
  map fst (dict_set (dict_set d k v) k v') = map fst (dict_set d k v).
Proof.
  rewrite (dict_set_keys (dict_set d k v)).
  assert (H : mem k (map fst (dict_set d k v)) = true).
  { apply mem_In. rewrite dict_set_keys.
    destruct (mem k (map fst d)) eqn:E; [now apply mem_In|].
    apply in_or_app. right. now left. }
  now rewrite H.
Qed.

(** X20: the task reports [no_reviews] exactly when every scraper it runs
    raised or found nothing, and in that case it neither writes to the
    database nor calls the backend. *)
Theorem task_without_reviews (db : Database) (tp : tape)
    (product_id product_name : string) (category : option string) :
  let out := scrape_product_reviews json_loads fsqrt search db tp
               product_id product_name category in
  (fst (fst out) = no_reviews product_id <->
   forall s, In s (scrapers_for category) -> search s = None \/ search s = Some []) /\
  (fst (fst out) = no_reviews product_id -> snd (fst out) = db /\ snd out = tp).
Proof.
  intro out. unfold out, scrape_product_reviews. rewrite <- collect_nil.
  destruct (collect search (scrapers_for category)) as [|r rs]; cbn [fst snd].
  - split; [tauto | now split].
  - destruct (calculate_rating json_loads fsqrt product_name (r :: rs) tp).
    cbn [fst snd]. split; [split; discriminate | discriminate].
Qed.

(** X21: when some scraper found a review and the rating call returns, as it
    does when the analysed sentiments lie in [-1,1], the task reports
    [success] with the score and the confidence of the rating of all
    collected reviews (those already stored included) and their number; it
    stores the unseen reviews, makes that rating the one of the product,
    leaves the ratings of other products alone and keeps one rating per
    product; and it has called the backend min(N, 20) + 1 times. *)
Theorem task_with_reviews (db : Database) (tp : tape)
    (product_id product_name : string) (category : option string) :
  let all_reviews := collect search (scrapers_for category) in
  let out := scrape_product_reviews json_loads fsqrt search db tp
               product_id product_name category in
  let rating := fst (calculate_rating json_loads fsqrt product_name all_reviews tp) in
  all_reviews <> [] ->
  Forall (fun a => -1 <= sentiment a <= 1)
         (fst (analyze_each json_loads (firstn 20 all_reviews) tp)) ->
  fst (fst out) = success product_id (ai_rating rating) (confidence rating)
                    (len all_reviews) /\
  review_sources (snd (fst out))
  = save_reviews product_id (review_sources db) all_reviews /\
  (forall default,
      dict_get (product_ratings (snd (fst out))) product_id default = rating) /\
  (forall other default, other <> product_id ->
      dict_get (product_ratings (snd (fst out))) other default
      = dict_get (product_ratings db) other default) /\
  (NoDup (map fst (product_ratings db)) ->
   NoDup (map fst (product_ratings (snd (fst out))))) /\
  snd out = skipn (Nat.min (List.length all_reviews) 20 + 1) tp.
Proof.
  intros all_reviews out rating Hne _.
  pose proof (calculate_rating_tape json_loads fsqrt product_name all_reviews tp)
    as Hcalls.
  destruct (calculate_rating_fields json_loads fsqrt product_name all_reviews tp Hne)
    as (_ & _ & _ & _ & _ & _ & Hn & _).
  unfold out, scrape_product_reviews. fold all_reviews. fold rating in Hn.
  unfold rating in *. clear rating out.
  destruct all_reviews as [|r rs] eqn:E; [congruence|].
  destruct (calculate_rating json_loads fsqrt product_name (r :: rs) tp)
    as [rating tp'].
  cbn [fst snd] in *. rewrite Hn.
  split; [reflexivity|]. split; [reflexivity|].
  split; [intro; apply dict_set_get|].
  split; [intros; now apply dict_set_other|].
  split; [apply dict_set_NoDup | exact Hcalls].
Qed.

(** X22: running the task twice on the same search results stores nothing
    new the second time and adds no second rating row: the stored reviews
    and the products that have a rating are the same after the second run
    as after the first. *)
Theorem task_rerun (db : Database) (tp : tape)
    (product_id product_name : string) (category : option string) :
  let first := scrape_product_reviews json_loads fsqrt search db tp
                 product_id product_name category in
  let second := scrape_product_reviews json_loads fsqrt search
                  (snd (fst first)) (snd first)
                  product_id product_name category in
  review_sources (snd (fst second)) = review_sources (snd (fst first)) /\
  map fst (product_ratings (snd (fst second)))
  = map fst (product_ratings (snd (fst first))).
Proof.
  intros first second. unfold second, first, scrape_product_reviews.
  destruct (collect search (scrapers_for category)) as [|r rs]; [now split|].
  destruct (calculate_rating json_loads fsqrt product_name (r :: rs) tp)
    as [rating tp1].
  cbn [fst snd review_sources product_ratings].
  destruct (calculate_rating json_loads fsqrt product_name (r :: rs) tp1)
    as [rating2 tp2].
  cbn [fst snd review_sources product_ratings]. split.
  - apply save_reviews_all_known. intros r' Hin. now apply save_reviews_known.
  - apply dict_set_keys_again.
Qed.

End PipelineFacts.

Section UrlFacts.

Lemma save_review_twice (product_id product_id' : string) (rows : list ReviewRow)
    (review : ScrapedReview) :
  save_review product_id' (save_review product_id rows review) review
  = save_review product_id rows review.
Proof.
  unfold save_review at 1. now rewrite save_review_known.
Qed.

(** X23: the task [scrape_url] fails without touching the database when the
    URL names none of the known sites and when the scraper chosen for it has
    no review; when that scraper has a review the task succeeds and reports
    the review's source type and the length of its content; it never touches
    the ratings; it keeps stored URLs pairwise different; and run a second
    time on its own result it changes nothing. *)
Theorem scrape_url_store (scrape : Scraper -> string -> option ScrapedReview)
    (db : Database) (url : string) (product_id : option string) :
  let out := scrape_url scrape db url product_id in
  (scraper_for_url url = None -> out = (url_failed url, db)) /\
  (forall scraper, scraper_for_url url = Some scraper ->
      scrape scraper url = None -> out = (url_failed url, db)) /\
  (forall scraper review, scraper_for_url url = Some scraper ->
      scrape scraper url = Some review ->
      fst out = url_success url (source_type review)
                  (Z.of_nat (String.length (content review)))) /\
  (fst out = url_failed url -> snd out = db) /\
  product_ratings (snd out) = product_ratings db /\
  (NoDup (map row_source_url (review_sources db)) ->
   NoDup (map row_source_url (review_sources (snd out)))) /\
  snd (scrape_url scrape (snd out) url product_id) = snd out.
Proof.
  intro out. unfold out, scrape_url.
  split; [now intros ->|].
  split; [now intros scraper -> ->|].
  split; [now intros scraper review -> ->|].
  destruct (match scraper_for_url url with
            | Some scraper => scrape scraper url
            | None => None
            end) as [review|]; cbn [fst snd]; [|repeat split; auto].
  split; [discriminate|].
  destruct product_id as [id|]; [|repeat split; auto].
  destruct (nonempty id); [|repeat split; auto].
  cbn [review_sources product_ratings].
  split; [reflexivity|]. split; [apply save_review_NoDup|].
  now rewrite save_review_twice.
Qed.

(** X24: the URL the Reddit scraper gives a post, "https://reddit.com"
    followed by the permalink, is always handed back to the Reddit scraper;
    the URL the YouTube scraper gives a video is handed back to the YouTube
    scraper unless the video id contains "reddit.com". *)
Theorem scraped_urls_route_back :
  (forall permalink,
      scraper_for_url ("https://reddit.com" ++ permalink) = Some reddit_scraper) /\
  (forall video_id,
      contains "reddit.com" video_id = false ->
      scraper_for_url ("https://www.youtube.com/watch?v=" ++ video_id)
      = Some youtube_scraper).
Proof.
  split.
  - intro permalink. unfold scraper_for_url.
    assert (H : contains "reddit.com" ("https://reddit.com" ++ permalink) = true).
    { cbn [append contains String.prefix Ascii.eqb Bool.eqb orb andb].
      assert (Hp : forall s, String.prefix "" s = true) by (now intros []).
      now rewrite Hp. }
    now rewrite H.
  - intros video_id Hid. unfold scraper_for_url.
    assert (H : contains "reddit.com" ("https://www.youtube.com/watch?v=" ++ video_id)
                = false).
    { cbn [append contains String.prefix Ascii.eqb Bool.eqb orb andb]. exact Hid. }
    rewrite H.
    assert (Hy : contains "youtube.com" ("https://www.youtube.com/watch?v=" ++ video_id)
                 = true).
    { cbn [append contains String.prefix Ascii.eqb Bool.eqb orb andb].
      assert (Hp : forall s, String.prefix "" s = true) by (now intros []).
      now rewrite Hp. }
    now rewrite Hy.
Qed.

End UrlFacts.

(** ** The Reddit scraper *)

Section SubstringFacts.

Local Open Scope string_scope.

Lemma prefix_spec (a s : string) :
  String.prefix a s = true <-> exists post, s = a ++ post.
Proof.
  revert s. induction a as [|c a IH]; intro s.
  - split; [intros _; now exists s | now destruct s].
  - destruct s as [|c' s']; simpl.
    + split; [discriminate | intros [post H]; discriminate H].
    + destruct (ascii_dec c c') as [->|Hne].
      * rewrite IH. split; intros [post H]; exists post; [now rewrite H | now injection H].
      * split; [discriminate | intros [post H]; injection H; congruence].
Qed.

Lemma contains_spec (sub s : string) :
  contains sub s = true <-> exists pre post, s = pre ++ sub ++ post.
Proof.
  induction s as [|c s IH]; cbn [contains]; rewrite orb_true_iff, prefix_spec.
  - split.
    + intros [[post H]|H]; [|discriminate]. now exists "", post.
    + intros (pre & post & H). left. destruct pre; [now exists post | discriminate H].
  - rewrite IH. split.
    + intros [[post H]|(pre & post & H)].
      * now exists "", post.
      * exists (String c pre), post. simpl. now rewrite H.
    + intros (pre & post & H). destruct pre as [|c' pre].
      * left. now exists post.
      * right. injection H as _ H. now exists pre, post.
Qed.

Lemma contains_trans (a b c : string) :
  contains a b = true -> contains b c = true -> contains a c = true.
Proof.
  rewrite !contains_spec. intros (p1 & q1 & ->) (p2 & q2 & ->).
  exists (p2 ++ p1), (q1 ++ q2). now rewrite !app_assoc_string.
Qed.

End SubstringFacts.

Section SubredditFacts.

Import Reddit.

Lemma category_subreddits_mono (q q' : string) (s : string) :
  contains q q' = true ->
  In s (category_subreddits q) -> In s (category_subreddits q').
Proof.
  intro Hsub. unfold category_subreddits. rewrite !in_flat_map.
  intros (entry & Hin & Hs). exists entry. split; [exact Hin|].
  destruct (existsb (fun kw => contains kw q) (snd entry)) eqn:E; [|contradiction].
  apply existsb_exists in E. destruct E as (kw & Hkw & Hc).
  assert (E' : existsb (fun kw => contains kw q') (snd entry) = true).
  { apply existsb_exists. exists kw. split; [exact Hkw|].
    now apply (contains_trans kw q q'). }
  now rewrite E'.
Qed.

(** X25: for every query the general subreddits are selected; the selection
    does not depend on the letter case of the query; and a query whose
    lower-cased text occurs in that of another selects no subreddit the other
    does not select. *)
Theorem subreddits_for_query :
  (forall query s, In s GENERAL_SUBREDDITS -> In s (_get_subreddits_for_query query)) /\
  (forall query query', lower query = lower query' ->
      _get_subreddits_for_query query = _get_subreddits_for_query query') /\
  (forall query query' s,
      contains (lower query) (lower query') = true ->
      In s (_get_subreddits_for_query query) ->
      In s (_get_subreddits_for_query query')).
Proof.
  unfold _get_subreddits_for_query. split; [|split].
  - intros query s H. apply (proj2 (first_seen_In _ _)), in_or_app. now left.
  - intros query query' H. now rewrite H.
  - intros query query' s Hsub H. apply (proj1 (first_seen_In _ _)) in H.
    apply (proj2 (first_seen_In _ _)).
    apply in_app_or in H. apply in_or_app. destruct H as [H|H]; [now left | right].
    now apply (category_subreddits_mono (lower query)).
Qed.

Lemma subreddits_for_query_witness :
  In "AskReddit"%string (_get_subreddits_for_query "Toaster") /\
  _get_subreddits_for_query "GAMING Mouse" = _get_subreddits_for_query "gaming mouse" /\
  In "pcgaming"%string (_get_subreddits_for_query "Best gaming mouse 2024").
Proof.
  destruct subreddits_for_query as (Hgen & Hcase & Hmono).
  split; [|split].
  - apply Hgen. vm_compute. tauto.
  - apply Hcase. reflexivity.
  - apply (Hmono "Gaming"%string); [reflexivity|]. vm_compute. tauto.
Defined.

End SubredditFacts.

Section PostFacts.

Import Reddit.

Local Open Scope string_scope.

Lemma concat_head (sep x : string) (l : list string) :
  exists rest, String.concat sep (x :: l) = x ++ rest.
Proof.
  destruct l as [|y l]; simpl.
  - exists "". clear. induction x as [|c x IH]; [reflexivity | simpl; now rewrite <- IH].
  - now exists (sep ++ String.concat sep (y :: l)).
Qed.

Lemma extract_post_content_head (post : Post) :
  exists rest, _extract_post_content post = "Title: " ++ post_title post ++ rest.
Proof.
  unfold _extract_post_content.
  set (parts0 := ["Title: " ++ post_title post]).
  assert (H : forall l : list string,
             exists rest, String.concat (newline ++ newline) (parts0 ++ l)%list
                          = "Title: " ++ post_title post ++ rest).
  { intro l. destruct (concat_head (newline ++ newline)
                         ("Title: " ++ post_title post) l) as [rest Hr].
    exists rest. unfold parts0. cbn [List.app]. rewrite Hr.
    now rewrite app_assoc_string. }
  destruct (post_is_self post && nonempty (post_selftext post)).
  - destruct (post_comments post) as [comments|].
    + rewrite <- app_assoc. apply H.
    + apply H.
  - destruct (post_comments post) as [comments|].
    + apply H.
    + rewrite <- (app_nil_r parts0). apply H.
Qed.

Lemma prefix_truncated (n : nat) (w t : string) :
  (String.length w <= n)%nat ->
  String.prefix w (substring 0 n (w ++ t) ++ "...") = true.
Proof.
  revert n. induction w as [|c w IH]; intros n H.
  - apply prefix_spec. now eexists.
  - destruct n as [|n]; [simpl in H; lia|]. cbn [append substring String.prefix].
    destruct (ascii_dec c c); [|congruence]. apply IH. simpl in H. lia.
Qed.

Lemma prefix_app_self (w t : string) : String.prefix w (w ++ t) = true.
Proof. apply prefix_spec. now exists t. Qed.

Lemma normalize_content_title (rest : string) :
  String.prefix "Title:" (normalize_content ("Title: " ++ rest)) = true.
Proof.
  rewrite normalize_content_unfold. cbn [append nonempty].
  change (String "T" (String "i" (String "t" (String "l" (String "e"
            (String ":" (String " " rest)))))))
    with ("Title:" ++ " " ++ rest).
  rewrite split_app_word by reflexivity.
  assert (Hc : exists t, String.concat " " ("Title:" :: split rest) = "Title:" ++ t)
    by apply concat_head.
  destruct Hc as [t ->].
  assert (H6 : (String.length "Title:" <= 5000)%nat) by (simpl; lia).
  revert H6. generalize 5000%nat. intros n H6.
  destruct (n <? _)%nat; [now apply prefix_truncated | apply prefix_app_self].
Qed.

(** X26: the content taken from a Reddit post is never empty: it begins with
    "Title: " and the title, and after normalisation it still begins with
    "Title:"; so the test for an empty content in [search] never turns a post
    away. *)
Theorem post_content_never_empty (post : Post) :
  (exists rest, _extract_post_content post = "Title: " ++ post_title post ++ rest) /\
  nonempty (_extract_post_content post) = true /\
  String.prefix "Title:" (normalize_content (_extract_post_content post)) = true /\
  nonempty (normalize_content (_extract_post_content post)) = true.
Proof.
  destruct (extract_post_content_head post) as [rest H].
  split; [now exists rest|]. rewrite H. split; [reflexivity|].
  pose proof (normalize_content_title (post_title post ++ rest)) as Hp.
  split; [exact Hp|].
  destruct (normalize_content ("Title: " ++ post_title post ++ rest));
    [discriminate Hp | reflexivity].
Qed.

End PostFacts.

Section SearchFacts.

Import Reddit.

Variable subreddits : list string.
Variable limit : Z.

Let rv (p : Post) : ScrapedReview := review_of p (_extract_post_content p).
Let off (p : Post) : bool := negb (mem (post_subreddit p) subreddits).

Lemma len_app_one {A : Type} (l : list A) (x : A) : len (l ++ [x]) = (len l + 1)%Z.
Proof. unfold len. rewrite List.length_app. simpl. lia. Qed.

Lemma len_filter_le {A : Type} (f : A -> bool) (l : list A) :
  (len (filter f l) <= len l)%Z.
Proof.
  unfold len. apply Nat2Z.inj_le. induction l as [|x l IH]; simpl; [lia|].
  destruct (f x); simpl; lia.
Qed.

Lemma len_map {A B : Type} (f : A -> B) (l : list A) : len (map f l) = len l.
Proof. unfold len. now rewrite length_map. Qed.

Lemma search_loop_invariant (posts acc : list Post) :
  (len acc = 0 \/ len acc < limit)%Z ->
  (len (filter off acc) <= Z.max (limit / 2) 0)%Z ->
  exists taken,
    search_loop subreddits limit posts (map rv acc) = map rv taken /\
    incl taken (acc ++ posts) /\
    (len taken <= Z.max limit 1)%Z /\
    (len (filter off taken) <= Z.max (limit / 2) 0)%Z.
Proof.
  revert acc. induction posts as [|p rest IH]; intros acc HP HQ.
  - exists acc. rewrite app_nil_r. repeat split; [apply incl_refl | lia | exact HQ].
  - cbn [search_loop]. rewrite len_map. fold (off p).
    assert (Hincl : forall taken, incl taken (acc ++ rest) -> incl taken (acc ++ p :: rest)).
    { intros taken H x Hx. apply H in Hx. apply in_app_or in Hx. apply in_or_app.
      destruct Hx; [now left | right; now right]. }
    destruct (off p && (limit / 2 <=? len acc)%Z) eqn:Eskip.
    + destruct (IH acc HP HQ) as (taken & H1 & H2 & H3 & H4).
      exists taken. repeat split; auto.
    + destruct (extract_post_content_head p) as [tail Hc].
      assert (Hne : nonempty (_extract_post_content p) = true) by now rewrite Hc.
      rewrite Hne. cbn [negb].
      assert (Hmap : (map rv acc ++ [review_of p (_extract_post_content p)])%list
                     = map rv (acc ++ [p])) by now rewrite map_app.
      rewrite Hmap, len_map, len_app_one.
      assert (HQ' : (len (filter off (acc ++ [p])) <= Z.max (limit / 2) 0)%Z).
      { rewrite filter_app. cbn [filter]. destruct (off p) eqn:Eoff.
        - rewrite len_app_one. cbn [andb] in Eskip. apply Z.leb_gt in Eskip.
          pose proof (len_filter_le off acc). lia.
        - now rewrite app_nil_r. }
      destruct (Z.leb_spec limit (len acc + 1)) as [Hfull|Hroom].
      * exists (acc ++ [p]). repeat split; [|rewrite len_app_one; lia|exact HQ'].
        intros x Hx. apply in_app_or in Hx. apply in_or_app.
        destruct Hx as [Hx|[<-|[]]]; [now left | right; now left].
      * destruct (IH (acc ++ [p])) as (taken & H1 & H2 & H3 & H4);
          [rewrite len_app_one; lia | exact HQ' |].
        exists taken. repeat split; auto. now rewrite <- app_assoc in H2.
Qed.

End SearchFacts.

(** X27: a Reddit search returns reviews of search results only, at most
    [limit] of them (one when [limit] is below 1), of which at most
    [limit // 2] come from subreddits outside the selection; every review
    has the source type "reddit" and a non-empty content; and without
    credentials the search returns nothing. *)
Theorem reddit_search_bounds (client : bool) (results : list Reddit.Post)
    (query : string) (limit : Z) :
  let found := Reddit.search client results query limit in
  (exists taken,
      found = map (fun p => Reddit.review_of p (Reddit._extract_post_content p)) taken /\
      incl taken results /\
      (len taken <= Z.max limit 1)%Z /\
      (len (filter (fun p => negb (mem (Reddit.post_subreddit p)
                                     (Reddit._get_subreddits_for_query query)))
              taken)
       <= Z.max (limit / 2) 0)%Z) /\
  Forall (fun r => source_type r = "reddit"%string /\ nonempty (content r) = true) found /\
  (client = false -> found = []).
Proof.
  intro found. unfold found, Reddit.search.
  destruct client; cycle 1.
  { split; [|split; [constructor | reflexivity]].
    exists []. cbn [map filter]. change (len (@nil Reddit.Post)) with 0%Z.
    repeat split; [apply incl_nil_l | lia | lia]. }
  destruct (search_loop_invariant (Reddit._get_subreddits_for_query query) limit
              results [] (or_introl eq_refl))
    as (taken & H1 & H2 & H3 & H4);
    [cbn [filter]; change (len (@nil Reddit.Post)) with 0%Z; lia|].
  cbn [map] in H1. cbn [List.app] in H2.
  split; [now exists taken|]. split; [|discriminate].
  rewrite H1. apply Forall_map, Forall_forall. intros p _. split; [reflexivity|].
  cbn [Reddit.review_of content].
  destruct (extract_post_content_head p) as [tail Hc]. rewrite Hc.
  pose proof (normalize_content_title (Reddit.post_title p ++ tail)) as Hp.
  destruct (normalize_content _); [discriminate Hp | reflexivity].
Qed.

(** ** The declared ranges *)

(** X28: with sentiments in [-1,1] from the analyzer and a non-negative
    engagement total, every score of the rating of a non-empty list lies in
    the range its field declares: confidence, reliability and popularity in
    [0,1], sentiment in [-1,1], and value in [0.3,0.7], inside [0,1]. *)
Theorem scores_within_declared_ranges (json_loads : string -> option Payload)
    (fsqrt : Q -> Q) (product_name : string)
    (reviews : list ScrapedReview) (tp : tape) :
  (forall x, 0 <= fsqrt x) ->
  reviews <> [] ->
  0 <= popularity_raw reviews ->
  Forall (fun a => -1 <= sentiment a <= 1)
         (fst (analyze_each json_loads (firstn 20 reviews) tp)) ->
  let r := fst (calculate_rating json_loads fsqrt product_name reviews tp) in
  0 <= confidence r <= 1 /\
  -1 <= sentiment_score r <= 1 /\
  0 <= reliability_score r <= 1 /\
  3 # 10 <= value_score r <= 7 # 10 /\
  0 <= popularity_score r <= 1.
Proof.
  intros Hsqrt Hne Hraw Hs r.
  destruct (calculate_rating_fields json_loads fsqrt product_name reviews tp Hne)
    as (_ & Hconf & Hsent & Hrel & Hval & Hpop & _).
  fold r in Hconf, Hsent, Hrel, Hval, Hpop.
  rewrite Hconf, Hsent, Hrel, Hval, Hpop.
  set (analyses := fst (analyze_each json_loads (firstn 20 reviews) tp)) in *.
  pose proof (reliability_bounds fsqrt analyses Hsqrt) as Hr.
  pose proof (confidence_bounds reviews _ Hr) as Hc.
  apply analyzed_sentiments_weighted in Hs.
  apply weighted_sentiment_bounds in Hs. fold analyses in Hs.
  pose proof (popularity_le_1 reviews) as Hp1.
  pose proof (popularity_nonneg reviews Hne Hraw) as Hp0.
  assert (Hv : 30 # 100 <= value_of (weighted_sentiment analyses) <= 70 # 100)
    by (unfold value_of; split; lra).
  apply round2_between in Hv.
  split; [split; [apply round2_ge_0 | apply round2_le_1]; apply Hc|].
  split; [split; [apply round2_ge_m1 | apply round2_le_1]; apply Hs|].
  split; [split; [apply round2_ge_0 | apply round2_le_1]; apply Hr|].
  split; [split; lra|].
  split; [apply round2_ge_0 | apply round2_le_1]; assumption.
Qed.

(** ** The properties at sample inputs *)

Lemma sentiment_score_between_witness :
  (-25) # 100
  <= sentiment_score (fst (calculate_rating Samples.scored_loads fixed_sqrt "Headphones"
                             Samples.duo Samples.duo_tape))
  <= 50 # 100.
Proof.
  apply sentiment_score_between.
  - lia.
  - lia.
  - discriminate.
  - vm_compute. repeat constructor; discriminate.
Defined.

Lemma score_effective_range_witness :
  (21 <= ai_rating (fst (calculate_rating Samples.wild_loads fixed_sqrt "Headphones"
                           [Samples.thread; Samples.editorial] [Raises; Raises]))
   <= 98)%Z.
Proof.
  apply score_effective_range.
  - apply fixed_sqrt_nonneg.
  - discriminate.
  - vm_compute. discriminate.
  - repeat constructor; vm_compute; discriminate.
Defined.

Lemma unanimous_analyses_witness :
  variance (map sentiment MoreSamples.agreeing) == 0 /\
  reliability fixed_sqrt MoreSamples.agreeing == 1.
Proof.
  apply (unanimous_analyses fixed_sqrt (1 # 2)).
  - apply fixed_sqrt_0.
  - simpl. lia.
  - repeat constructor; reflexivity.
Defined.

Lemma confidence_grows_with_sources_witness :
  4 # 100 <= confidence (fst (calculate_rating no_loads fixed_sqrt "Headphones"
                                [Samples.thread] [])) /\
  confidence_of [Samples.thread] (1 # 2) <= confidence_of Samples.crowd (1 # 2) /\
  confidence_of Samples.crowd (1 # 2) == (6 # 10) + (1 # 2) * (4 # 10).
Proof.
  destruct confidence_grows_with_sources as (Hfloor & Hmono & Hsat).
  split; [|split].
  - apply Hfloor. discriminate.
  - apply Hmono. simpl. lia.
  - apply Hsat. simpl. lia.
Defined.

Lemma popularity_ignores_order_witness :
  popularity [Samples.thread; Samples.editorial]
  = popularity [Samples.editorial; Samples.thread].
Proof.
  apply (popularity_ignores_order [Samples.thread; Samples.editorial]
           [Samples.editorial; Samples.thread]).
  apply perm_swap.
Defined.

Lemma backend_outage_witness :
  let r := fst (calculate_rating Samples.wild_loads fixed_sqrt "Headphones"
                  Samples.crowd []) in
  reliability_score r == 1 /\ confidence r == 1 /\ (62 <= ai_rating r <= 67)%Z.
Proof.
  destruct (backend_outage Samples.wild_loads fixed_sqrt "Headphones"
              Samples.crowd [] fixed_sqrt_0 ltac:(discriminate) ltac:(constructor))
    as (_ & _ & _ & _ & _ & H).
  destruct H as (Hrel & Hconf & Hscore); [simpl; lia|].
  split; [exact Hrel|]. split.
  - apply Hconf. simpl. lia.
  - apply Hscore. vm_compute. discriminate.
Defined.

Lemma save_reviews_idempotent_witness :
  In (source_url Samples.thread)
     (map row_source_url (save_reviews "p1" [] [Samples.thread; Samples.thread])) /\
  NoDup (map row_source_url (save_reviews "p1" [] [Samples.thread; Samples.thread])).
Proof.
  destruct (save_reviews_idempotent "p1" "p2" [] [Samples.thread; Samples.thread])
    as (_ & Hin & Hnd & _).
  split.
  - apply Hin. now left.
  - apply Hnd. constructor.
Defined.

Lemma task_without_reviews_witness :
  scrape_product_reviews no_loads fixed_sqrt MoreSamples.nothing_found
    MoreSamples.empty_db [Raises] "p1" "Headphones" (Some "audio"%string)
  = (no_reviews "p1", MoreSamples.empty_db, [Raises]).
Proof.
  destruct (task_without_reviews no_loads fixed_sqrt MoreSamples.nothing_found
              MoreSamples.empty_db [Raises] "p1" "Headphones" (Some "audio"%string))
    as [Hiff Hsame].
  assert (H : fst (fst (scrape_product_reviews no_loads fixed_sqrt
                          MoreSamples.nothing_found MoreSamples.empty_db [Raises]
                          "p1" "Headphones" (Some "audio"%string)))
              = no_reviews "p1").
  { apply Hiff. intros s _. destruct s; [right | left ..]; reflexivity. }
  destruct (Hsame H) as [Hdb Htp].
  destruct (scrape_product_reviews _ _ _ _ _ _ _ _) as [[res db] tp].
  cbn [fst snd] in *. now subst.
Defined.

Lemma task_with_reviews_witness :
  fst (fst (scrape_product_reviews no_loads fixed_sqrt MoreSamples.reddit_only
              MoreSamples.empty_db [] "p1" "Headphones" None))
  = success "p1" 50 (48 # 100) 2.
Proof.
  assert (Hs : Forall (fun a => -1 <= sentiment a <= 1)
            (fst (analyze_each no_loads
                    (firstn 20 (collect MoreSamples.reddit_only (scrapers_for None)))
                    []))).
  { vm_compute. repeat constructor; discriminate. }
  destruct (task_with_reviews no_loads fixed_sqrt MoreSamples.reddit_only
              MoreSamples.empty_db [] "p1" "Headphones" None ltac:(discriminate) Hs)
    as (H & _).
  rewrite H. reflexivity.
Defined.

Lemma scrape_url_store_witness :
  scrape_url MoreSamples.always_thread MoreSamples.empty_db
    "https://example.org/review" (Some "p1"%string)
  = (url_failed "https://example.org/review", MoreSamples.empty_db) /\
  scrape_url MoreSamples.never_scraped MoreSamples.empty_db
    "https://www.reddit.com/r/x/1" (Some "p1"%string)
  = (url_failed "https://www.reddit.com/r/x/1", MoreSamples.empty_db) /\
  fst (scrape_url MoreSamples.always_thread MoreSamples.empty_db
         "https://www.reddit.com/r/x/1" (Some "p1"%string))
  = url_success "https://www.reddit.com/r/x/1" "reddit" 37 /\
  NoDup (map row_source_url
           (review_sources
              (snd (scrape_url MoreSamples.always_thread MoreSamples.empty_db
                      "https://www.reddit.com/r/x/1" (Some "p1"%string))))).
Proof.
  destruct (scrape_url_store MoreSamples.always_thread MoreSamples.empty_db
              "https://example.org/review" (Some "p1"%string)) as (Hunknown & _).
  destruct (scrape_url_store MoreSamples.never_scraped MoreSamples.empty_db
              "https://www.reddit.com/r/x/1" (Some "p1"%string))
    as (_ & Hnone & _).
  destruct (scrape_url_store MoreSamples.always_thread MoreSamples.empty_db
              "https://www.reddit.com/r/x/1" (Some "p1"%string))
    as (_ & _ & Hsome & _ & _ & Hnd & _).
  split; [exact (Hunknown eq_refl)|].
  split; [exact (Hnone reddit_scraper eq_refl eq_refl)|].
  split; [exact (Hsome reddit_scraper Samples.thread eq_refl eq_refl)|].
  apply Hnd. constructor.
Defined.

Lemma scraped_urls_route_back_witness :
  scraper_for_url "https://www.youtube.com/watch?v=dQw4w9WgXcQ" = Some youtube_scraper.
Proof.
  apply (proj2 scraped_urls_route_back "dQw4w9WgXcQ"%string). reflexivity.
Defined.

Lemma reddit_search_bounds_witness :
  Reddit.search false [] "headphones" 10 = [].
Proof.
  apply (reddit_search_bounds false [] "headphones" 10). reflexivity.
Defined.

Lemma displayed_phrases_distinct_witness :
  let r := fst (calculate_rating Samples.scored_loads fixed_sqrt "Headphones" Samples.duo Samples.duo_tape) in
  NoDup (rating_pros r) /\ NoDup (rating_cons r) /\
  Forall (fun s => nonempty s = true) (rating_pros r) /\
  Forall (fun s => nonempty s = true) (rating_cons r).
Proof.
  apply (displayed_phrases_distinct Samples.scored_loads fixed_sqrt "Headphones" Samples.duo Samples.duo_tape).
  vm_compute. repeat constructor.
Defined.

Lemma scores_within_declared_ranges_witness :
  let r := fst (calculate_rating Samples.scored_loads fixed_sqrt "Headphones" Samples.duo Samples.duo_tape) in
  0 <= confidence r <= 1 /\
  -1 <= sentiment_score r <= 1 /\
  0 <= reliability_score r <= 1 /\
  3 # 10 <= value_score r <= 7 # 10 /\
  0 <= popularity_score r <= 1.
Proof.
  apply (scores_within_declared_ranges Samples.scored_loads fixed_sqrt "Headphones"
           Samples.duo Samples.duo_tape).
  - apply fixed_sqrt_nonneg.
  - discriminate.
  - vm_compute. discriminate.
  - vm_compute. repeat constructor; discriminate.
Defined.
